(** * ethtool-exporter: a shallow embedding of [ethtool-exporter.py]

    The exporter samples [ethtool -S] counters for every physical network
    interface and publishes them as one Prometheus gauge family, either
    over HTTP or into a text file.

    Layout of this development:
    - [PyStr]   : the [str] methods the script calls ([strip], [split],
                  [in], truthiness);
    - [PyNum]   : [float()] and [int()] applied to text;
    - [Re]      : [re.match] on the fragment of pattern syntax modelled;
    - the script itself: [_parse_args], [whitelist_blacklist_check],
      [update_ethtool_stats], [find_physical_interfaces], [collect] and
      the [__main__] block;
    - the vocabulary in which the properties are stated, and the worlds
      and command lines of the worked examples;
    - facts about the three library models ([PyStrFacts], [PyNumFacts],
      [ReFacts]);
    - the properties of the collection pipeline and of the scheduler.

    Text is a Rocq [string]: a character is a code point below 256.
    Effects are explicit: a computation returns the events it emitted
    (log records, files written, sleeps) together with its result, which
    is a value, a [sys.exit] status or an uncaught exception. *)

From Stdlib Require Import String Ascii List ZArith Lia Bool.
From stdpp Require Import gmap strings.
Import ListNotations.
Open Scope string_scope.
Open Scope list_scope.
Open Scope Z_scope.

(** ** Python [str] primitives *)

Module PyStr.

(** [str.isspace] on one character, for code points below 256:
    TAB..CR, FS..US, SPACE, NEL and NBSP. *)
Definition isspace (c : ascii) : bool :=
  let n := nat_of_ascii c in
  ((9 <=? n) && (n <=? 13) || (28 <=? n) && (n <=? 32)
   || (n =? 133) || (n =? 160))%nat.

(** Truthiness of a [str]: only the empty string is false. *)
Definition truthy (s : string) : bool :=
  match s with
  | EmptyString => false
  | String _ _ => true
  end.

(** Truthiness of an optional argument value: [None] and [''] are false. *)
Definition truthy_opt (o : option string) : bool :=
  match o with
  | Some s => truthy s
  | None => false
  end.

(** Stripping with respect to a class of characters; [str.strip] uses
    [isspace], the number parsers use their own, smaller class. *)
Fixpoint lstrip_by (p : ascii -> bool) (s : string) : string :=
  match s with
  | EmptyString => EmptyString
  | String c s' => if p c then lstrip_by p s' else s
  end.

Fixpoint rstrip_by (p : ascii -> bool) (s : string) : string :=
  match s with
  | EmptyString => EmptyString
  | String c s' =>
      match rstrip_by p s' with
      | EmptyString => if p c then EmptyString else String c EmptyString
      | r => String c r
      end
  end.

Definition strip_by (p : ascii -> bool) (s : string) : string :=
  rstrip_by p (lstrip_by p s).

(** [s.strip()] *)
Definition strip (s : string) : string := strip_by isspace s.

Fixpoint drop (n : nat) (s : string) : string :=
  match n, s with
  | O, _ => s
  | S n', String _ s' => drop n' s'
  | S _, EmptyString => EmptyString
  end.

(** The leftmost occurrence of [sep] in [s]: the text before it and the
    text after it, as [s.partition(sep)] finds them; [None] when [sep]
    does not occur.  [sep] is non-empty at every call site. *)
Fixpoint partition (sep s : string) : option (string * string) :=
  if String.prefix sep s then Some (EmptyString, drop (String.length sep) s)
  else
    match s with
    | EmptyString => None
    | String c s' =>
        match partition sep s' with
        | Some (a, b) => Some (String c a, b)
        | None => None
        end
    end.

(** [s.split(sep)]: cut at every non-overlapping occurrence of [sep],
    leftmost first.  Each cut consumes at least one character, so
    [length s] rounds are enough (see [split_unfold]). *)
Fixpoint split_fuel (fuel : nat) (sep s : string) : list string :=
  match fuel with
  | O => [s]
  | S f =>
      match partition sep s with
      | None => [s]
      | Some (a, b) => a :: split_fuel f sep b
      end
  end.

Definition split (sep s : string) : list string :=
  split_fuel (String.length s) sep s.

(** [sub in s] *)
Fixpoint contains (sub s : string) : bool :=
  String.prefix sub s
  || match s with
     | EmptyString => false
     | String _ s' => contains sub s'
     end.

(** Occurrence of one character. *)
Fixpoint mem_char (c : ascii) (s : string) : bool :=
  match s with
  | EmptyString => false
  | String d s' => (d =? c)%char || mem_char c s'
  end.

End PyStr.

(** ** [float()] and [int()] on text *)

Module PyNum.
Import PyStr.

(** The value of [float(text)].  A finite value is kept as the decimal
    literal that was read, sign, digits and power of ten: CPython rounds
    [mantissa * 10 ^ exp10] to the nearest binary64, which this model
    does not compute. *)
Inductive pyfloat : Type :=
  | Finite (negative : bool) (mantissa : N) (exp10 : Z)
  | Inf (negative : bool)
  | NaN.

(** The float of an integer literal, as in [100.0]. *)
Definition float_of_Z (z : Z) : pyfloat := Finite (z <? 0) (Z.abs_N z) 0.

(** White space skipped around a number ([Py_ISSPACE] after the
    conversion of non-ASCII spaces): TAB..CR, SPACE, NEL and NBSP. *)
Definition num_space (c : ascii) : bool :=
  let n := nat_of_ascii c in
  ((9 <=? n) && (n <=? 13) || (n =? 32) || (n =? 133) || (n =? 160))%nat.

Definition is_digit (c : ascii) : bool :=
  let n := nat_of_ascii c in ((48 <=? n) && (n <=? 57))%nat.

Definition digit_val (c : ascii) : N := N.of_nat (nat_of_ascii c - 48).

(** ASCII lower-casing of one character. *)
Definition lower (c : ascii) : ascii :=
  let n := nat_of_ascii c in
  if ((65 <=? n) && (n <=? 90))%nat then ascii_of_nat (n + 32) else c.

(** Digit grouping: an underscore is accepted only between two digits;
    the text is returned without its underscores.  [prev] is the
    character just read (NUL at the start). *)
Fixpoint underscores (prev : ascii) (s : string) : option string :=
  match s with
  | EmptyString => if (prev =? "_")%char then None else Some EmptyString
  | String c s' =>
      if (c =? "_")%char then
        if is_digit prev then underscores c s' else None
      else if (prev =? "_")%char && negb (is_digit c) then None
      else option_map (String c) (underscores c s')
  end.

(** Case-insensitive comparison with a lower-case literal. *)
Fixpoint ieq (lit s : string) : bool :=
  match lit, s with
  | EmptyString, EmptyString => true
  | String a lit', String b s' => (lower b =? a)%char && ieq lit' s'
  | _, _ => false
  end.

Definition inf_or_nan_body (neg : bool) (s : string) : option pyfloat :=
  if ieq "inf" s || ieq "infinity" s then Some (Inf neg)
  else if ieq "nan" s then Some NaN
  else None.

Definition parse_inf_or_nan (s : string) : option pyfloat :=
  match s with
  | String c s' =>
      if (c =? "-")%char then inf_or_nan_body true s'
      else if (c =? "+")%char then inf_or_nan_body false s'
      else inf_or_nan_body false s
  | EmptyString => None
  end.

(** The decimal grammar
    [[sign] (digits [. [digits]] | . digits) [(e|E) [sign] digits]]
    read one character at a time. *)
Inductive phase : Type :=
  | Start | Signed | IntPart | DotOnly | FracPart
  | ExpMark | ExpSigned | ExpPart.

Record scan : Type := mkScan {
  ph : phase;
  neg : bool;
  mant : N;
  fdigits : Z;
  eneg : bool;
  expo : N
}.

Definition scan0 : scan := mkScan Start false 0 0 false 0.

Definition to_phase (p : phase) (st : scan) : scan :=
  mkScan p (neg st) (mant st) (fdigits st) (eneg st) (expo st).

Definition int_digit (c : ascii) (st : scan) : scan :=
  mkScan IntPart (neg st) (10 * mant st + digit_val c) (fdigits st)
         (eneg st) (expo st).

Definition frac_digit (c : ascii) (st : scan) : scan :=
  mkScan FracPart (neg st) (10 * mant st + digit_val c) (fdigits st + 1)
         (eneg st) (expo st).

Definition exp_digit (c : ascii) (st : scan) : scan :=
  mkScan ExpPart (neg st) (mant st) (fdigits st) (eneg st)
         (10 * expo st + digit_val c).

Definition is_e (c : ascii) : bool := (c =? "e")%char || (c =? "E")%char.

Definition step (st : scan) (c : ascii) : option scan :=
  match ph st with
  | Start =>
      if (c =? "-")%char then
        Some (mkScan Signed true (mant st) (fdigits st) (eneg st) (expo st))
      else if (c =? "+")%char then Some (to_phase Signed st)
      else if is_digit c then Some (int_digit c st)
      else if (c =? ".")%char then Some (to_phase DotOnly st)
      else None
  | Signed =>
      if is_digit c then Some (int_digit c st)
      else if (c =? ".")%char then Some (to_phase DotOnly st)
      else None
  | IntPart =>
      if is_digit c then Some (int_digit c st)
      else if (c =? ".")%char then Some (to_phase FracPart st)
      else if is_e c then Some (to_phase ExpMark st)
      else None
  | DotOnly =>
      if is_digit c then Some (frac_digit c st) else None
  | FracPart =>
      if is_digit c then Some (frac_digit c st)
      else if is_e c then Some (to_phase ExpMark st)
      else None
  | ExpMark =>
      if (c =? "-")%char then
        Some (mkScan ExpSigned (neg st) (mant st) (fdigits st) true (expo st))
      else if (c =? "+")%char then Some (to_phase ExpSigned st)
      else if is_digit c then Some (exp_digit c st)
      else None
  | ExpSigned | ExpPart =>
      if is_digit c then Some (exp_digit c st) else None
  end.

Fixpoint run (st : scan) (s : string) : option scan :=
  match s with
  | EmptyString => Some st
  | String c s' =>
      match step st c with
      | Some st' => run st' s'
      | None => None
      end
  end.

Definition finish (st : scan) : option pyfloat :=
  match ph st with
  | IntPart | FracPart | ExpPart =>
      let e := if eneg st then - Z.of_N (expo st) else Z.of_N (expo st) in
      Some (Finite (neg st) (mant st) (e - fdigits st))
  | _ => None
  end.

Definition parse_decimal (s : string) : option pyfloat :=
  match run scan0 s with
  | Some st => finish st
  | None => None
  end.

Definition NUL : ascii := "000"%char.

(** [float(s)] for a [str]; [None] is [ValueError]. *)
Definition py_float (s : string) : option pyfloat :=
  match underscores NUL (strip_by num_space s) with
  | None => None
  | Some t =>
      match parse_inf_or_nan t with
      | Some v => Some v
      | None => parse_decimal t
      end
  end.

Fixpoint all_digits (s : string) : bool :=
  match s with
  | EmptyString => true
  | String c s' => is_digit c && all_digits s'
  end.

Fixpoint digits_value (acc : N) (s : string) : N :=
  match s with
  | EmptyString => acc
  | String c s' => digits_value (10 * acc + digit_val c) s'
  end.

Definition int_body (s : string) : option N :=
  match underscores NUL s with
  | Some (String c ds) =>
      if all_digits (String c ds) then Some (digits_value 0 (String c ds))
      else None
  | _ => None
  end.

(** [int(s)] for a [str] in base 10; [None] is [ValueError]. *)
Definition py_int (s : string) : option Z :=
  match strip_by num_space s with
  | String c s' =>
      if (c =? "-")%char then option_map (fun n => - Z.of_N n) (int_body s')
      else if (c =? "+")%char then option_map Z.of_N (int_body s')
      else option_map Z.of_N (int_body (String c s'))
  | EmptyString => None
  end.

End PyNum.

(** ** [re.match] on a fragment of the pattern syntax *)

Module Re.

(** Patterns of the fragment: literals, [.], the anchors [^] and [$],
    concatenation, [|], and [*] (from which [+] and [?] are built). *)
Inductive regex : Type :=
  | Eps
  | Chr (c : ascii)
  | Any
  | Bol
  | Eol
  | Cat (r1 r2 : regex)
  | Alt (r1 r2 : regex)
  | Star (r : regex).

Definition LF : ascii := "010"%char.

(** A position in the subject: whether it is the very start, and the
    text still to read. *)
Definition pos : Type := bool * string.

(** [$] holds at the end of the subject and just before a final
    newline. *)
Definition at_end (s : string) : bool :=
  match s with
  | EmptyString => true
  | String c EmptyString => (c =? LF)%char
  | _ => false
  end.

(** [Matches r p q]: read from position [p], the pattern [r] can match
    and stop at position [q]. *)
Inductive Matches : regex -> pos -> pos -> Prop :=
  | M_Eps p : Matches Eps p p
  | M_Chr c b s : Matches (Chr c) (b, String c s) (false, s)
  | M_Any c b s : c <> LF -> Matches Any (b, String c s) (false, s)
  | M_Bol s : Matches Bol (true, s) (true, s)
  | M_Eol b s : at_end s = true -> Matches Eol (b, s) (b, s)
  | M_Cat r1 r2 p q t :
      Matches r1 p q -> Matches r2 q t -> Matches (Cat r1 r2) p t
  | M_AltL r1 r2 p q : Matches r1 p q -> Matches (Alt r1 r2) p q
  | M_AltR r1 r2 p q : Matches r2 p q -> Matches (Alt r1 r2) p q
  | M_Star0 r p : Matches (Star r) p p
  | M_StarS r p q t :
      Matches r p q -> Matches (Star r) q t -> Matches (Star r) p t.

(** The matcher: every position at which a match of [r] started at [p]
    can stop.  An iteration of [*] that reads nothing cannot reach a new
    position, so only iterations that advance are followed, and the
    length of the remaining text bounds their number. *)
Definition advances (p q : pos) : bool :=
  (String.length (snd q) <? String.length (snd p))%nat.

Fixpoint star_iter (body : pos -> list pos) (fuel : nat) (p : pos)
  : list pos :=
  p :: match fuel with
       | O => []
       | S f => flat_map (star_iter body f) (List.filter (advances p) (body p))
       end.

Fixpoint ends (r : regex) (p : pos) : list pos :=
  match r with
  | Eps => [p]
  | Chr c =>
      match snd p with
      | String d s => if (d =? c)%char then [(false, s)] else []
      | EmptyString => []
      end
  | Any =>
      match snd p with
      | String d s => if (d =? LF)%char then [] else [(false, s)]
      | EmptyString => []
      end
  | Bol => if fst p then [p] else []
  | Eol => if at_end (snd p) then [p] else []
  | Cat r1 r2 => flat_map (ends r2) (ends r1 p)
  | Alt r1 r2 => ends r1 p ++ ends r2 p
  | Star r1 => star_iter (ends r1) (String.length (snd p)) p
  end.

(** [re.match(r, s) is not None] *)
Definition re_match (r : regex) (s : string) : bool :=
  match ends r (true, s) with
  | [] => false
  | _ :: _ => true
  end.

(** [re.fullmatch(r, s) is not None]: the match must stop at the end. *)
Definition re_fullmatch (r : regex) (s : string) : bool :=
  existsb (fun q => match snd q with EmptyString => true | _ => false end)
          (ends r (true, s)).

(** *** Reading a pattern *)

Definition is_meta (c : ascii) : bool :=
  existsb (Ascii.eqb c)
    ["."; "^"; "$"; "*"; "+"; "?"; "{"; "}"; "["; "]"; "\"; "|"; "("; ")"]%char.

Definition is_quantifier (c : ascii) : bool :=
  existsb (Ascii.eqb c) ["*"; "+"; "?"; "{"]%char.

Definition seq_of (items : list regex) : regex :=
  match items with
  | [] => Eps
  | i :: rest => fold_left Cat rest i
  end.

Fixpoint alt_of (first : list regex) (others : list (list regex)) : regex :=
  match others with
  | [] => seq_of first
  | b :: bs => Alt (seq_of first) (alt_of b bs)
  end.

(** One optional postfix operator after an atom.  Anchors cannot be
    repeated, and an operator that follows another one (lazy and
    possessive forms) is outside the fragment. *)
Definition postfix (a : regex) (repeatable : bool) (s : string)
  : option (regex * string) :=
  match s with
  | String c s' =>
      if is_quantifier c then
        if negb repeatable then None
        else
          match s' with
          | String d _ => if is_quantifier d then None else
              if (c =? "*")%char then Some (Star a, s')
              else if (c =? "+")%char then Some (Cat a (Star a), s')
              else if (c =? "?")%char then Some (Alt a Eps, s')
              else None
          | EmptyString =>
              if (c =? "*")%char then Some (Star a, s')
              else if (c =? "+")%char then Some (Cat a (Star a), s')
              else if (c =? "?")%char then Some (Alt a Eps, s')
              else None
          end
      else Some (a, s)
  | EmptyString => Some (a, s)
  end.

(** The branches of an alternation, each a list of items, read up to the
    end of the text or to the [)] that closes the enclosing group. *)
Fixpoint branches (fuel : nat) (s : string)
  : option (list regex * list (list regex) * string) :=
  match fuel with
  | O => None
  | S f =>
      match s with
      | EmptyString => Some ([], [], s)
      | String c s' =>
          let item (a : regex) (repeatable : bool) (rest : string) :=
            match postfix a repeatable rest with
            | Some (i, rest') =>
                match branches f rest' with
                | Some (b, bs, rest'') => Some (i :: b, bs, rest'')
                | None => None
                end
            | None => None
            end in
          if (c =? ")")%char then Some ([], [], s)
          else if (c =? "|")%char then
            match branches f s' with
            | Some (b, bs, rest) => Some ([], b :: bs, rest)
            | None => None
            end
          else if (c =? "(")%char then
            match s' with
            | String "?" _ => None
            | _ =>
                match branches f s' with
                | Some (b, bs, String ")" rest) => item (alt_of b bs) true rest
                | _ => None
                end
            end
          else if (c =? "\")%char then
            match s' with
            | String d rest => if is_meta d then item (Chr d) true rest else None
            | EmptyString => None
            end
          else if (c =? ".")%char then item Any true s'
          else if (c =? "^")%char then item Bol false s'
          else if (c =? "$")%char then item Eol false s'
          else if is_meta c then None
          else item (Chr c) true s'
      end
  end.

(** [re.compile(pattern)] on the fragment; [None] stands for [re.error]
    and for patterns the fragment does not cover. *)
Definition re_compile (pattern : string) : option regex :=
  match branches (S (String.length pattern)) pattern with
  | Some (b, bs, EmptyString) => Some (alt_of b bs)
  | _ => None
  end.

(** Patterns without [$] do not look at what follows the match. *)
Fixpoint no_eol (r : regex) : bool :=
  match r with
  | Eol => false
  | Cat r1 r2 | Alt r1 r2 => no_eol r1 && no_eol r2
  | Star r1 => no_eol r1
  | _ => true
  end.

End Re.

(** ** The script *)

Import PyStr PyNum Re.

(** *** Effects *)

Inductive level : Type := CRITICAL | ERROR | WARNING.

(** One sample of the gauge family: the label values [[iface, key]] and
    the value. *)
Definition sample : Type := (string * string * pyfloat)%type.

(** The [GaugeMetricFamily] named [node_net_ethtool] with labels
    [device] and [type], as the list of samples added so far. *)
Definition gauge : Type := list sample.

Definition add_metric (g : gauge) (iface key : string) (v : pyfloat) : gauge :=
  g ++ [(iface, key, v)].

Inductive event : Type :=
  | Log (lv : level) (msg : string)
  | PrintHelp
  | ParserError
  | StartHttpServer (addr : string) (port : Z)
  | WriteTextfile (path : string) (g : gauge)
  | Sleep (seconds : Z).

Inductive exn : Type := ReError | ValueError | OSError | OverflowError.

Inductive res (A : Type) : Type :=
  | Ok (a : A)
  | SysExit (status : Z)
  | Uncaught (e : exn).
Arguments Ok {A} a.
Arguments SysExit {A} status.
Arguments Uncaught {A} e.

(** A computation: the events it emitted, in order, and how it ended. *)
Definition M (A : Type) : Type := (list event * res A)%type.

Definition ret {A} (a : A) : M A := ([], Ok a).

Definition bind {A B} (m : M A) (k : A -> M B) : M B :=
  match m with
  | (evs, Ok a) => let (evs', r) := k a in (evs ++ evs', r)
  | (evs, SysExit n) => (evs, SysExit n)
  | (evs, Uncaught e) => (evs, Uncaught e)
  end.

Definition emit (e : event) : M unit := ([e], Ok tt).
Definition sys_exit {A} (status : Z) : M A := ([], SysExit status).
Definition raise {A} (e : exn) : M A := ([], Uncaught e).

Notation "x <- m ;; k" := (bind m (fun x => k))
  (at level 100, m at next level, right associativity).
Notation "m ;;; k" := (bind m (fun _ => k))
  (at level 100, right associativity).

Fixpoint foldM {A B} (f : A -> B -> M A) (a : A) (l : list B) : M A :=
  match l with
  | [] => ret a
  | x :: l' => a' <- f a x ;; foldM f a' l'
  end.

(** *** The world the script reads *)

(** What [subprocess.Popen(['/sbin/ethtool', '-S', iface])] followed by
    [communicate()] gives: an exception of [Popen], or the exit status
    and the decoded standard output. *)
Inductive popen_result : Type :=
  | FileNotFound
  | PermissionDenied (e : string)
  | PopenOSError
  | Ran (returncode : Z) (stdout : string).

(** An entry of [/sys/class/net]: its name and, when it is a symbolic
    link, the target [os.readlink] returns. *)
Record dirent : Type := mkDirent {
  d_name : string;
  d_link : option string
}.

Record env : Type := mkEnv {
  listdir : option (list dirent);
  ethtool : string -> popen_result
}.

(** *** Configuration *)

(** The options present on the command line, with their values. *)
Record cmdline : Type := mkCmdline {
  c_textfile_name : option string;
  c_listen : option string;
  c_interval : option Z;
  c_interface_regex : option string;
  c_oneshot : bool;
  c_whitelist_regex : option string;
  c_blacklist_regex : option string
}.

(** [self.args] *)
Record args : Type := mkArgs {
  textfile_name : option string;
  listen : option string;
  interval : Z;
  interface_regex : string;
  oneshot : bool;
  whitelist_regex : option string;
  blacklist_regex : option string
}.

Definition is_some {A} (o : option A) : bool :=
  match o with Some _ => true | None => false end.

(** Truthiness of the parsed interval: [None] and [0] are false. *)
Definition truthy_int (o : option Z) : bool :=
  match o with
  | Some n => negb (n =? 0)
  | None => false
  end.

(** [parser.parse_args]: the two option groups.  [argparse] reports a
    violation through [parser.error], which prints the usage and exits
    with status 2. *)
Definition argparse (c : cmdline) : M unit :=
  if is_some (c_textfile_name c) && is_some (c_listen c) then
    emit ParserError ;;; sys_exit 2
  else if is_some (c_whitelist_regex c) && is_some (c_blacklist_regex c) then
    emit ParserError ;;; sys_exit 2
  else if negb (is_some (c_textfile_name c)) && negb (is_some (c_listen c)) then
    emit ParserError ;;; sys_exit 2
  else ret tt.

(** The namespace [parse_args] returns, with the interval defaulted. *)
Definition args_of (c : cmdline) : args :=
  {| textfile_name := c_textfile_name c;
     listen := c_listen c;
     interval := if truthy_int (c_interval c)
                 then default 5 (c_interval c) else 5;
     interface_regex := default ".*" (c_interface_regex c);
     oneshot := c_oneshot c;
     whitelist_regex := c_whitelist_regex c;
     blacklist_regex := c_blacklist_regex c |}.

(** [logging.error(...)] followed by [parser.print_help()]. *)
Definition oneshot_error : list event :=
  [Log ERROR "Oneshot has to be used with textfile mode"; PrintHelp].

Definition interval_error : list event :=
  [Log ERROR "Interval has to be used with textfile mode"; PrintHelp].

Definition _parse_args (c : cmdline) : M args :=
  argparse c ;;;
  if c_oneshot c && negb (truthy_opt (c_textfile_name c)) then
    (oneshot_error, SysExit 1)
  else if truthy_int (c_interval c) && negb (truthy_opt (c_textfile_name c)) then
    (interval_error, SysExit 1)
  else ret (args_of c).

(** *** Name filter *)

(** [re.match(pattern, s)] as a truth value. *)
Definition py_re_match (pattern s : string) : M bool :=
  match re_compile pattern with
  | Some r => ret (re_match r s)
  | None => raise ReError
  end.

Definition whitelist_blacklist_check (a : args) (stat_name : string) : M bool :=
  if truthy_opt (whitelist_regex a) then
    m <- py_re_match (default "" (whitelist_regex a)) stat_name ;;
    if m then ret true else ret false
  else if truthy_opt (blacklist_regex a) then
    m <- py_re_match (default "" (blacklist_regex a)) stat_name ;;
    if m then ret false else ret true
  else ret true.

(** *** Counter parser and snapshot builder *)

Definition dq : string := String "034"%char EmptyString.
Definition NL : string := String LF EmptyString.

(** What the [try] block of the loop makes of one line. *)
Inductive parsed : Type :=
  | Skipped
  | Failed (line : string)
  | Pair (key : string) (value : pyfloat).

Definition parse_line (line : string) : parsed :=
  if negb (truthy line) || (line =? "NIC statistics:")%string then Skipped
  else
    let line := strip line in
    match split ": " line with
    | [key; value] =>
        let key := strip key in
        let value := strip value in
        match py_float value with
        | Some v => Pair key v
        | None => Failed line
        end
    | _ => Failed line
    end.

(** The log records of the collection. *)
Definition failed_parsing (line : string) : event :=
  Log WARNING ("Failed parsing " +:+ dq +:+ line +:+ dq).

Definition already_seen (key iface : string) : event :=
  Log WARNING ("Item " +:+ key +:+
               " already seen, check the source data for interface "
               +:+ iface).

Definition not_found : event :=
  Log CRITICAL "/sbin/ethtool not found. Giving up".

Definition permission_error (e : string) : event :=
  Log CRITICAL ("Permission error trying to run /sbin/ethtool: " +:+ e).

Definition nonzero_status (iface : string) : event :=
  Log CRITICAL ("Ethtool returned non-zero return code for interface "
                +:+ iface).

(** The loop state: [key_set] and the gauge being filled. *)
Definition loop_state : Type := (gset string * gauge)%type.

Definition process_line (a : args) (iface : string)
  (st : loop_state) (line : string) : M loop_state :=
  let '(key_set, g) := st in
  match parse_line line with
  | Skipped => ret st
  | Failed l => emit (failed_parsing l) ;;; ret st
  | Pair key value =>
      ok <- whitelist_blacklist_check a key ;;
      if negb ok then ret st
      else if bool_decide (key ∈ key_set) then
        emit (already_seen key iface) ;;; ret st
      else ret ({[key]} ∪ key_set, add_metric g iface key value)
  end.

Definition update_ethtool_stats (w : env) (a : args)
  (iface : string) (g : gauge) : M gauge :=
  match ethtool w iface with
  | FileNotFound => emit not_found ;;; sys_exit 1
  | PermissionDenied e => emit (permission_error e) ;;; sys_exit 1
  | PopenOSError => raise OSError
  | Ran returncode data =>
      if negb (returncode =? 0) then
        emit (nonzero_status iface) ;;; ret g
      else
        st <- foldM (process_line a iface) (∅, g) (split NL data) ;;
        ret (snd st)
  end.

(** *** Interface enumerator *)

(** The test on one directory entry; [re.match] is reached only for a
    link whose target does not contain ['virtual']. *)
Definition physical (a : args) (d : dirent) : M bool :=
  match d_link d with
  | Some target =>
      if negb (contains "virtual" target)
      then py_re_match (interface_regex a) (d_name d)
      else ret false
  | None => ret false
  end.

(** The names the generator yields, in the order of the listing. *)
Definition find_entry (a : args) (acc : list string) (d : dirent)
  : M (list string) :=
  p <- physical a d ;;
  if p then ret (acc ++ [d_name d]) else ret acc.

Definition find_physical_interfaces (w : env) (a : args) : M (list string) :=
  match listdir w with
  | None => raise OSError
  | Some entries => foldM (find_entry a) [] entries
  end.

(** [collect]: the generator is consumed as it yields, one interface
    being processed before the next entry is examined. *)
Definition collect_entry (w : env) (a : args) (g : gauge) (d : dirent)
  : M gauge :=
  p <- physical a d ;;
  if p then update_ethtool_stats w a (d_name d) g else ret g.

Definition collect (w : env) (a : args) : M gauge :=
  match listdir w with
  | None => raise OSError
  | Some entries => foldM (collect_entry w a) [] entries
  end.

(** *** The scheduler *)

(** How an observation of the process ends: it terminated with a status,
    or it was still running when the observation stopped. *)
Inductive final : Type :=
  | Terminated (status : Z)
  | StillRunning.

(** [time.sleep(seconds)] for an [int]: the length is first converted
    to a count of nanoseconds on 64 bits, which raises [OverflowError]
    beyond 9223372036 seconds in either direction; a negative length is
    then refused with [ValueError]. *)
Definition sleep_max : Z := 9223372036.

Definition sleep_error (seconds : Z) : option exn :=
  if (seconds <? - sleep_max) || (sleep_max <? seconds)
  then Some OverflowError
  else if seconds <? 0 then Some ValueError
  else None.

Definition sleep (seconds : Z) : M unit :=
  match sleep_error seconds with
  | Some e => raise e
  | None => emit (Sleep seconds)
  end.

(** [prometheus_client.write_to_textfile(path, registry)]: the registry
    runs the collector once, and the text is moved into place when it is
    complete. *)
Definition write_to_textfile (w : env) (a : args) (path : string) : M unit :=
  g <- collect w a ;;
  emit (WriteTextfile path g).

(** One round of the file-mode loop.  Its first statement,
    [collector.collect()], only builds a generator that is never
    iterated: it runs nothing. *)
Definition round (w : env) (a : args) (path : string) : M unit :=
  write_to_textfile w a path ;;;
  if oneshot a then sys_exit 0 else sleep (interval a).

(** The file-mode loop, observed for [fuel] rounds; [world tick] is the
    system as round [tick] finds it. *)
Fixpoint file_loop (world : nat -> env) (a : args) (path : string)
  (tick fuel : nat) : list event * option (res unit) :=
  match fuel with
  | O => ([], None)
  | S f =>
      match round (world tick) a path with
      | (evs, Ok _) =>
          let (evs', r) := file_loop world a path (S tick) f in
          (evs ++ evs', r)
      | (evs, r) => (evs, Some r)
      end
  end.

(** The serve-mode loop [while True: time.sleep(3600)]. *)
Fixpoint serve_loop (fuel : nat) : list event :=
  match fuel with
  | O => []
  | S f => Sleep 3600 :: serve_loop f
  end.

Definition exit_status (r : res unit) : Z :=
  match r with
  | Ok _ => 0
  | SysExit n => n
  | Uncaught _ => 1
  end.

Definition finish_with (r : option (res unit)) : final :=
  match r with
  | Some r => Terminated (exit_status r)
  | None => StillRunning
  end.

(** A port [start_http_server] can bind: outside 0..65535 the call
    raises [OverflowError]. *)
Definition port_in_range (n : Z) : bool := (0 <=? n) && (n <=? 65535).

(** The [__main__] block, observed for [fuel] rounds of its loop.  In
    serve mode [StartHttpServer ip n] is the call of
    [start_http_server] with a port in range; that the operating system
    then grants the address is assumed.  The scrapes the server answers
    run in its own threads, see [scrape]. *)
Definition main (c : cmdline) (world : nat -> env) (fuel : nat)
  : list event * final :=
  match _parse_args c with
  | (evs, Ok a) =>
      if truthy_opt (listen a) then
        match split ":" (default "" (listen a)) with
        | [ip; port] =>
            match py_int port with
            | Some n =>
                if port_in_range n then
                  (evs ++ StartHttpServer ip n :: serve_loop fuel,
                   StillRunning)
                else (evs, Terminated 1)
            | None => (evs, Terminated 1)
            end
        | _ => (evs, Terminated 1)
        end
      else if truthy_opt (textfile_name a) then
        let (evs', r) :=
          file_loop world a (default "" (textfile_name a)) 0 fuel in
        (evs ++ evs', finish_with r)
      else (evs, Terminated 0)
  | (evs, SysExit n) => (evs, Terminated n)
  | (evs, Uncaught _) => (evs, Terminated 1)
  end.

(** What a scrape request gets from the server. *)
Inductive response : Type :=
  | Served (g : gauge)
  | RequestFailed.

(** One scrape in serve mode.  The exposition library answers each
    request in a thread of the HTTP server and calls [collect] there; an
    exception or a [SystemExit] raised while a request is handled ends
    that request and nothing else. *)
Definition scrape (w : env) (a : args) : list event * response :=
  match collect w a with
  | (evs, Ok g) => (evs, Served g)
  | (evs, _) => (evs, RequestFailed)
  end.

Definition is_start (e : event) : bool :=
  match e with
  | StartHttpServer _ _ => true
  | _ => false
  end.

(** The process in serve mode, observed through [scrapes] requests and
    [fuel] rounds of the main thread: the events of the main thread, the
    outcome of each request, and how the observation ends.  Requests
    are answered only if the server was started; [world j] is the system
    as request [j] finds it. *)
Definition serve (c : cmdline) (world : nat -> env) (scrapes fuel : nat)
  : list event * list (list event * response) * final :=
  let (evs, fin) := main c world fuel in
  match _parse_args c with
  | (_, Ok a) =>
      if existsb is_start evs
      then (evs, map (fun j => scrape (world j) a) (seq 0 scrapes), fin)
      else (evs, [], fin)
  | _ => (evs, [], fin)
  end.

(** ** Vocabulary of the properties *)

(** The decision of the filter, [None] when the pattern in force cannot
    be compiled. *)
Definition includes (a : args) (name : string) : option bool :=
  if truthy_opt (whitelist_regex a) then
    option_map (fun r => re_match r name)
               (re_compile (default "" (whitelist_regex a)))
  else if truthy_opt (blacklist_regex a) then
    option_map (fun r => negb (re_match r name))
               (re_compile (default "" (blacklist_regex a)))
  else Some true.

(** The parser as the design describes it: drop empty lines and the
    header, cut the trimmed line at the first [": "], trim both parts,
    read the value part as a number. *)
Definition spec_parse_line (line : string) : parsed :=
  if negb (truthy line) || (line =? "NIC statistics:")%string then Skipped
  else
    let line := strip line in
    match partition ": " line with
    | None => Failed line
    | Some (name, value) =>
        match py_float (strip value) with
        | Some v => Pair (strip name) v
        | None => Failed line
        end
    end.

(** The counters read from a text, in order, before filtering. *)
Definition pairs_of (lines : list string) : list (string * pyfloat) :=
  flat_map (fun line =>
              match parse_line line with
              | Pair k v => [(k, v)]
              | _ => []
              end) lines.

Definition s_iface (s : sample) : string := fst (fst s).
Definition s_name (s : sample) : string := snd (fst s).

(** The value of the first counter named [k] in a list of counters. *)
Definition first_value (k : string) (l : list (string * pyfloat))
  : option pyfloat :=
  option_map snd (List.find (fun p => (fst p =? k)%string) l).

(** The label pair of a sample. *)
Definition s_labels (s : sample) : string * string := fst s.

(** The names a snapshot holds for one interface. *)
Definition names_for (iface : string) (g : gauge) : list string :=
  map s_name (List.filter (fun s => (s_iface s =? iface)%string) g).

(** The text of the worked example. *)
Definition NIC_example : string :=
  "NIC statistics:" +:+ NL +:+ "rx_packets: 100" +:+ NL +:+
  "rx_errors: 0" +:+ NL +:+ "rx_packets: 999" +:+ NL.

(** The test on a directory entry once the pattern is compiled. *)
Definition qualifies (r : regex) (d : dirent) : bool :=
  match d_link d with
  | Some target => negb (contains "virtual" target) && re_match r (d_name d)
  | None => false
  end.

(** A directory of the worked examples: a physical interface, the
    loopback device and a plain file. *)
Definition sys_class_net_example : list dirent :=
  [ mkDirent "eth0" (Some "../../devices/pci0000:00/0000:00:03.0/net/eth0");
    mkDirent "lo" (Some "../../devices/virtual/net/lo");
    mkDirent "bonding_masters" None ].

(** A directory with two interfaces whose names share a prefix. *)
Definition sys_class_net_prefix : list dirent :=
  [ mkDirent "eth0" (Some "../../devices/pci0000:00/0000:00:03.0/net/eth0");
    mkDirent "eth01" (Some "../../devices/pci0000:00/0000:00:04.0/net/eth01");
    mkDirent "eth1" (Some "../../devices/pci0000:00/0000:00:05.0/net/eth1") ].

(** Log records, as opposed to files written, sleeps and the server. *)
Definition is_log (e : event) : Prop :=
  match e with
  | Log _ _ => True
  | _ => False
  end.

Definition completes (m : M unit) : Prop := exists evs, m = (evs, Ok tt).

(** A command line of file mode: a non-empty path, no [--listen], and
    at most one of the two filter options. *)
Definition file_mode (c : cmdline) (path : string) : Prop :=
  c_textfile_name c = Some path /\ truthy path = true
  /\ c_listen c = None
  /\ is_some (c_whitelist_regex c) && is_some (c_blacklist_regex c) = false.

(** A world in which [/sbin/ethtool] is missing. *)
Definition world_without_ethtool : env :=
  mkEnv (Some sys_class_net_example) (fun _ => FileNotFound).

(** A world in which [/sbin/ethtool] may not be executed. *)
Definition world_ethtool_forbidden : env :=
  mkEnv (Some sys_class_net_example)
        (fun _ => PermissionDenied "[Errno 13] Permission denied").

(** A world in which [ethtool -S] fails for every interface. *)
Definition world_ethtool_fails : env :=
  mkEnv (Some sys_class_net_example) (fun _ => Ran 1 EmptyString).

Definition oneshot_cmdline : cmdline :=
  mkCmdline (Some "/tmp/ethtool.prom") None None None true None None.

(** A command line that names both destinations. *)
Definition both_destinations : cmdline :=
  mkCmdline (Some "/tmp/ethtool.prom") (Some "0.0.0.0:9417")
            None None false None None.

(** A command line that gives both filters. *)
Definition both_filters : cmdline :=
  mkCmdline (Some "/tmp/ethtool.prom") None None None false
            (Some "^rx_") (Some "^tx_").

(** [--oneshot] together with [--listen]. *)
Definition oneshot_with_listen : cmdline :=
  mkCmdline None (Some "0.0.0.0:9417") None None true None None.

(** A world whose device listing cannot be read. *)
Definition world_unreadable : env := mkEnv None (fun _ => FileNotFound).

(** [--listen 0.0.0.0:9417]. *)
Definition listen_cmdline : cmdline :=
  mkCmdline None (Some "0.0.0.0:9417") None None false None None.

(** [--interval 0] together with [--listen]. *)
Definition listen_interval_zero : cmdline :=
  mkCmdline None (Some "0.0.0.0:9417") (Some 0) None false None None.

(** A world with one physical interface that reports the worked
    example. *)
Definition world_example : env :=
  mkEnv (Some sys_class_net_example) (fun _ => Ran 0 NIC_example).

(** *** Vocabulary of the further properties *)

Definition res_map {A B} (f : A -> B) (r : res A) : res B :=
  match r with
  | Ok a => Ok (f a)
  | SysExit n => SysExit n
  | Uncaught e => Uncaught e
  end.

(** A command line of serve mode: a non-empty [--listen], no text file,
    at most one filter, no [--oneshot] and no interval that counts. *)
Definition serve_mode (c : cmdline) (addr : string) : Prop :=
  c_listen c = Some addr /\ truthy addr = true
  /\ c_textfile_name c = None
  /\ is_some (c_whitelist_regex c) && is_some (c_blacklist_regex c) = false
  /\ c_oneshot c = false
  /\ truthy_int (c_interval c) = false.


Definition is_failed (p : parsed) : bool :=
  match p with
  | Failed _ => true
  | _ => false
  end.

(** The lines of a text that the parser refuses. *)
Definition n_failed (lines : list string) : nat :=
  length (List.filter is_failed (map parse_line lines)).

(** The counters of a text that the name filter lets through. *)
Definition n_accepted (a : args) (lines : list string) : nat :=
  length (List.filter
            (fun p => match includes a (fst p) with
                      | Some true => true
                      | _ => false
                      end)
            (pairs_of lines)).

(** The events file mode can emit for the path it was given. *)
Definition file_event (path : string) (e : event) : Prop :=
  match e with
  | Log _ _ => True
  | WriteTextfile p _ => p = path
  | Sleep _ => True
  | _ => False
  end.

Definition is_write (e : event) : Prop :=
  match e with
  | WriteTextfile _ _ => True
  | _ => False
  end.

Definition is_server_start (e : event) : Prop :=
  match e with
  | StartHttpServer _ _ => True
  | _ => False
  end.

(** The header line as [ethtool] prints it with a carriage return. *)
Definition header_with_CR : string :=
  "NIC statistics:" +:+ String "013"%char EmptyString.

(** The text starts with a character outside the class, if it starts. *)
Definition head_kept (p : ascii -> bool) (s : string) : Prop :=
  match s with
  | EmptyString => True
  | String c _ => p c = false
  end.

(** The last record of a trace is a CRITICAL log record. *)
Definition ends_with_critical (evs : list event) : Prop :=
  exists before msg, evs = before ++ [Log CRITICAL msg].

(** ** Facts about the library models *)

Module PyStrFacts.
Import PyStr.

(** *** Facts about [partition] and [split] *)

Lemma drop_length_le n s : (String.length (drop n s) <= String.length s)%nat.
Proof.
  revert s; induction n as [|n IH]; intros [|c s]; simpl; try lia.
  specialize (IH s); lia.
Qed.

Lemma prefix_nonempty_cons sep s :
  sep <> EmptyString -> String.prefix sep s = true ->
  exists c s', s = String c s'.
Proof.
  destruct sep as [|a sep]; [congruence|]; intros _.
  destruct s as [|c s]; simpl; [discriminate|eauto].
Qed.

Lemma partition_shorter sep s a b :
  sep <> EmptyString -> partition sep s = Some (a, b) ->
  (String.length b < String.length s)%nat.
Proof.
  intros Hsep; revert a b; induction s as [|c s IH]; intros a b.
  - cbn [partition]. destruct (String.prefix sep "") eqn:Hp; [|discriminate].
    destruct (prefix_nonempty_cons _ _ Hsep Hp) as (? & ? & E); discriminate E.
  - cbn [partition].
    destruct (String.prefix sep (String c s)) eqn:Hp.
    + intros [= <- <-].
      destruct sep as [|x sep]; [congruence|]. cbn [String.length drop].
      pose proof (drop_length_le (String.length sep) s). lia.
    + destruct (partition sep s) as [[a' b']|] eqn:Hq; [|discriminate].
      intros [= <- <-]. specialize (IH _ _ eq_refl). simpl; lia.
Qed.

Lemma split_fuel_enough sep :
  sep <> EmptyString ->
  forall fuel s, (String.length s <= fuel)%nat ->
  split_fuel fuel sep s = split_fuel (String.length s) sep s.
Proof.
  intros Hsep fuel; induction fuel as [fuel IH] using lt_wf_ind; intros s Hle.
  destruct fuel as [|f].
  - destruct s; simpl in *; [reflexivity|lia].
  - destruct (String.length s) as [|n] eqn:Hn.
    + destruct s; [|discriminate]. cbn [split_fuel].
      destruct (partition sep "") as [[a b]|] eqn:Hq; [|reflexivity].
      apply (partition_shorter _ _ _ _ Hsep) in Hq. simpl in Hq; lia.
    + cbn [split_fuel].
      destruct (partition sep s) as [[a b]|] eqn:Hq; [|reflexivity].
      pose proof (partition_shorter _ _ _ _ Hsep Hq) as Hlt.
      f_equal. rewrite (IH f) by lia. symmetry. apply IH; lia.
Qed.

(** The loop of [split] written as its own equation: the fuel is never
    the reason a cut is missed. *)
Lemma split_unfold sep s :
  sep <> EmptyString ->
  split sep s =
    match partition sep s with
    | None => [s]
    | Some (a, b) => a :: split sep b
    end.
Proof.
  intros Hsep. unfold split.
  destruct (String.length s) as [|n] eqn:Hn.
  - destruct s; [|discriminate]. cbn [split_fuel].
    destruct (partition sep "") as [[a b]|] eqn:Hq; [|reflexivity].
    apply (partition_shorter _ _ _ _ Hsep) in Hq. simpl in Hq; lia.
  - cbn [split_fuel].
    destruct (partition sep s) as [[a b]|] eqn:Hq; [|reflexivity].
    pose proof (partition_shorter _ _ _ _ Hsep Hq) as Hlt.
    f_equal. apply split_fuel_enough; [assumption|lia].
Qed.

Lemma append_assoc (a b c : string) : (a +:+ b) +:+ c = a +:+ (b +:+ c).
Proof.
  induction a as [|x a IH]; [reflexivity|].
  change (String x ((a +:+ b) +:+ c) = String x (a +:+ (b +:+ c))).
  now rewrite IH.
Qed.

(** Stripping only removes characters of the class. *)
Lemma mem_char_lstrip_by p c s :
  p c = false -> mem_char c (lstrip_by p s) = mem_char c s.
Proof.
  intros Hp; induction s as [|d s IH]; [reflexivity|]. cbn [lstrip_by].
  destruct (p d) eqn:Hd; [|reflexivity]. rewrite IH. cbn [mem_char].
  destruct (Ascii.eqb_spec d c) as [->|_]; [congruence|reflexivity].
Qed.

Lemma mem_char_rstrip_by p c s :
  p c = false -> mem_char c (rstrip_by p s) = mem_char c s.
Proof.
  intros Hp; induction s as [|d s IH]; [reflexivity|]. cbn [rstrip_by mem_char].
  rewrite <- IH. destruct (rstrip_by p s) as [|e r]; [|reflexivity].
  destruct (p d) eqn:Hd; cbn [mem_char]; [|reflexivity].
  destruct (Ascii.eqb_spec d c) as [->|_]; [congruence|reflexivity].
Qed.

Lemma mem_char_strip_by p c s :
  p c = false -> mem_char c (strip_by p s) = mem_char c s.
Proof.
  intros Hp. unfold strip_by.
  now rewrite mem_char_rstrip_by, mem_char_lstrip_by.
Qed.

Lemma prefix_mem_char c sep s :
  String.prefix (String c sep) s = true -> mem_char c s = true.
Proof.
  destruct s as [|d s]; cbn [String.prefix mem_char]; [discriminate|].
  destruct (ascii_dec c d) as [->|Hne]; [|discriminate].
  intros _. now rewrite Ascii.eqb_refl.
Qed.

(** A separator that occurs brings its first character with it. *)
Lemma partition_mem_char c sep s a b :
  partition (String c sep) s = Some (a, b) -> mem_char c s = true.
Proof.
  revert a b; induction s as [|d s IH]; intros a b; cbn [partition].
  - destruct (String.prefix (String c sep) "") eqn:Hp; [|discriminate].
    intros _. now apply prefix_mem_char in Hp.
  - destruct (String.prefix (String c sep) (String d s)) eqn:Hp.
    + intros _. now apply prefix_mem_char in Hp.
    + destruct (partition (String c sep) s) as [[a' b']|]; [|discriminate].
      intros _. cbn [mem_char]. rewrite (IH _ _ eq_refl). apply orb_true_r.
Qed.

End PyStrFacts.

Module PyNumFacts.
Import PyStr PyStrFacts PyNum.

(** *** No number contains a colon

    Used below to show that cutting a counter line at every separator
    and cutting it at the first one accept the same lines. *)

Lemma step_colon st : step st ":" = None.
Proof. destruct st as [[] ? ? ? ? ?]; reflexivity. Qed.

Lemma run_no_colon s : forall st st',
  run st s = Some st' -> mem_char ":" s = false.
Proof.
  induction s as [|c s IH]; intros st st'; [reflexivity|].
  cbn [run mem_char].
  destruct (Ascii.eqb_spec c ":") as [->|_].
  - now rewrite step_colon.
  - destruct (step st c) as [st1|]; [|discriminate]. apply IH.
Qed.

Lemma lower_colon b : lower b = ":"%char -> b = ":"%char.
Proof.
  destruct b as [[] [] [] [] [] [] [] []]; vm_compute; congruence.
Qed.

Lemma ieq_no_colon lit : forall s,
  ieq lit s = true -> mem_char ":" lit = false -> mem_char ":" s = false.
Proof.
  induction lit as [|a lit IH]; intros [|b s]; cbn [ieq mem_char];
    try discriminate; [reflexivity|].
  intros [Hab Hrest]%andb_true_iff [Ha Hlit]%orb_false_iff.
  rewrite (IH _ Hrest Hlit), orb_false_r.
  apply Ascii.eqb_eq in Hab. apply Ascii.eqb_neq in Ha.
  apply Ascii.eqb_neq. intros ->. now apply Ha, eq_sym; rewrite <- Hab.
Qed.

Lemma inf_or_nan_body_no_colon n s v :
  inf_or_nan_body n s = Some v -> mem_char ":" s = false.
Proof.
  unfold inf_or_nan_body.
  destruct (ieq "inf" s) eqn:H1;
    [intros _; now apply (ieq_no_colon _ _ H1)|].
  destruct (ieq "infinity" s) eqn:H2;
    [intros _; now apply (ieq_no_colon _ _ H2)|].
  destruct (ieq "nan" s) eqn:H3;
    [intros _; now apply (ieq_no_colon _ _ H3)|discriminate].
Qed.

Lemma parse_inf_or_nan_no_colon s v :
  parse_inf_or_nan s = Some v -> mem_char ":" s = false.
Proof.
  destruct s as [|c s]; [reflexivity|]. cbn [parse_inf_or_nan].
  destruct (Ascii.eqb_spec c "-") as [->|_];
    [intros H; cbn [mem_char]; now rewrite (inf_or_nan_body_no_colon _ _ _ H)|].
  destruct (Ascii.eqb_spec c "+") as [->|_];
    [intros H; cbn [mem_char]; now rewrite (inf_or_nan_body_no_colon _ _ _ H)|].
  apply inf_or_nan_body_no_colon.
Qed.

Lemma underscores_no_colon s : forall prev t,
  underscores prev s = Some t ->
  mem_char ":" t = false -> mem_char ":" s = false.
Proof.
  induction s as [|c s IH]; intros prev t; [reflexivity|].
  cbn [underscores mem_char].
  destruct (Ascii.eqb_spec c "_") as [->|Hc].
  - destruct (is_digit prev); [|discriminate]. intros H Ht.
    now rewrite (IH _ _ H Ht).
  - destruct ((prev =? "_")%char && negb (is_digit c)); [discriminate|].
    destruct (underscores c s) as [t'|] eqn:Hu; [|discriminate].
    intros [= <-]. cbn [mem_char]. intros [Hcc Ht]%orb_false_iff.
    now rewrite Hcc, (IH _ _ Hu Ht).
Qed.

Theorem py_float_no_colon s v :
  py_float s = Some v -> mem_char ":" s = false.
Proof.
  unfold py_float.
  destruct (underscores NUL (strip_by num_space s)) as [t|] eqn:Hu;
    [|discriminate].
  intros H.
  assert (Ht : mem_char ":" t = false).
  { destruct (parse_inf_or_nan t) as [w|] eqn:Hp.
    - now apply parse_inf_or_nan_no_colon in Hp.
    - unfold parse_decimal in H.
      destruct (run scan0 t) as [st|] eqn:Hr; [|discriminate].
      now apply run_no_colon in Hr. }
  rewrite <- (mem_char_strip_by num_space ":" s) by reflexivity.
  exact (underscores_no_colon _ _ _ Hu Ht).
Qed.

End PyNumFacts.

Module ReFacts.
Import PyStr PyStrFacts Re.

(** *** The matcher computes [Matches] *)

Lemma Matches_length r p q :
  Matches r p q ->
  (String.length (snd q) <= String.length (snd p))%nat
  /\ (String.length (snd q) = String.length (snd p) -> q = p).
Proof.
  induction 1 as [p|c b s|c b s Hc|s|b s He
                  |r1 r2 p q t _ [L1 E1] _ [L2 E2]
                  |r1 r2 p q _ IH|r1 r2 p q _ IH
                  |r p|r p q t _ [L1 E1] _ [L2 E2]];
    cbn [snd String.length] in *; try (split; [lia | first [reflexivity | lia]]);
    try assumption.
  - split; [lia|]. intros E. rewrite E2 by lia. apply E1; lia.
  - split; [lia|]. intros E. rewrite E2 by lia. apply E1; lia.
Qed.

(** What a match reads is a prefix of the text at its start. *)
Lemma Matches_prefix r p q :
  Matches r p q -> exists m, snd p = m +:+ snd q.
Proof.
  induction 1 as [p|c b s|c b s Hc|s|b s He
                  |r1 r2 p q t _ [m1 E1] _ [m2 E2]
                  |r1 r2 p q _ IH|r1 r2 p q _ IH
                  |r p|r p q t _ [m1 E1] _ [m2 E2]];
    cbn [snd] in *;
    try (now exists EmptyString); try assumption;
    try (now exists (String c EmptyString)).
  - exists (m1 +:+ m2). now rewrite E1, E2, append_assoc.
  - exists (m1 +:+ m2). now rewrite E1, E2, append_assoc.
Qed.

Lemma star_iter_mono body f : forall f' p q,
  (f <= f')%nat -> In q (star_iter body f p) -> In q (star_iter body f' p).
Proof.
  induction f as [|f IH]; intros f' p q Hle.
  - cbn [star_iter]. intros [<-|[]]. destruct f'; now left.
  - destruct f' as [|f']; [lia|]. cbn [star_iter].
    intros [<-|Hin]; [now left|right].
    apply in_flat_map in Hin as (x & Hx & Hq). apply in_flat_map.
    exists x; split; [assumption|]. apply IH; [lia|assumption].
Qed.

Lemma star_iter_sound r :
  (forall p q, In q (ends r p) -> Matches r p q) ->
  forall fuel p q, In q (star_iter (ends r) fuel p) -> Matches (Star r) p q.
Proof.
  intros Hbody fuel; induction fuel as [|f IH]; intros p q; cbn [star_iter].
  - intros [<-|[]]. constructor.
  - intros [<-|Hin]; [constructor|].
    apply in_flat_map in Hin as (x & Hx & Hq).
    apply filter_In in Hx as [Hx _].
    eapply M_StarS; [apply Hbody; eassumption|apply IH; assumption].
Qed.

Lemma ends_sound r : forall p q, In q (ends r p) -> Matches r p q.
Proof.
  induction r as [|c| | | |r1 IH1 r2 IH2|r1 IH1 r2 IH2|r IH];
    intros [b s] q; cbn [ends fst snd].
  - intros [<-|[]]. constructor.
  - destruct s as [|d s]; [intros []|].
    destruct (Ascii.eqb_spec d c) as [->|_]; [|intros []].
    intros [<-|[]]. constructor.
  - destruct s as [|d s]; [intros []|].
    destruct (Ascii.eqb_spec d LF) as [->|Hd]; [intros []|].
    intros [<-|[]]. now constructor.
  - destruct b; [|intros []]. intros [<-|[]]. constructor.
  - destruct (at_end s) eqn:He; [|intros []]. intros [<-|[]]. now constructor.
  - intros Hin. apply in_flat_map in Hin as (x & Hx & Hq).
    eapply M_Cat; [apply IH1|apply IH2]; eassumption.
  - intros [Hin|Hin]%in_app_or; [apply M_AltL, IH1|apply M_AltR, IH2];
      assumption.
  - apply star_iter_sound, IH.
Qed.

Lemma ends_complete r p q : Matches r p q -> In q (ends r p).
Proof.
  induction 1 as [p|c b s|c b s Hc|s|b s He
                  |r1 r2 p q t _ IH1 _ IH2
                  |r1 r2 p q _ IH|r1 r2 p q _ IH
                  |r p|r p q t H1 IH1 H2 IH2];
    cbn [ends fst snd].
  - now left.
  - rewrite Ascii.eqb_refl. now left.
  - destruct (Ascii.eqb_spec c LF) as [->|_]; [congruence|now left].
  - now left.
  - rewrite He. now left.
  - apply in_flat_map. eauto.
  - apply in_or_app. now left.
  - apply in_or_app. now right.
  - destruct (String.length (snd p)); now left.
  - destruct (Matches_length _ _ _ H1) as [Hle Heq].
    destruct (Nat.eq_dec (String.length (snd q)) (String.length (snd p)))
      as [E|Hne].
    + rewrite <- (Heq E). exact IH2.
    + destruct (String.length (snd p)) as [|n] eqn:Hn; [lia|].
      cbn [star_iter]. right. apply in_flat_map. exists q. split.
      * apply filter_In. split; [assumption|].
        unfold advances. apply Nat.ltb_lt. lia.
      * cbn [ends] in IH2. eapply star_iter_mono; [|exact IH2]. lia.
Qed.

Theorem ends_spec r p q : In q (ends r p) <-> Matches r p q.
Proof. split; [apply ends_sound|apply ends_complete]. Qed.

(** [re.match] succeeds exactly when the pattern matches some prefix of
    the subject, read from its start. *)
Theorem re_match_spec r s :
  re_match r s = true <->
  exists m rest b, s = m +:+ rest /\ Matches r (true, s) (b, rest).
Proof.
  unfold re_match. split.
  - destruct (ends r (true, s)) as [|[b rest] l] eqn:He; [discriminate|].
    intros _. assert (Hm : Matches r (true, s) (b, rest)).
    { apply ends_sound. rewrite He. now left. }
    destruct (Matches_prefix _ _ _ Hm) as [m Em]. now exists m, rest, b.
  - intros (m & rest & b & _ & Hm). apply ends_complete in Hm.
    destruct (ends r (true, s)); [destruct Hm|reflexivity].
Qed.

(** [re.fullmatch] asks for the whole subject. *)
Theorem re_fullmatch_spec r s :
  re_fullmatch r s = true <-> exists b, Matches r (true, s) (b, EmptyString).
Proof.
  unfold re_fullmatch. rewrite existsb_exists. split.
  - intros ([b rest] & Hin & Hrest). cbn [snd] in Hrest.
    destruct rest; [|discriminate]. exists b. now apply ends_sound.
  - intros [b Hm]. exists (b, EmptyString). split; [|reflexivity].
    now apply ends_complete.
Qed.

Lemma Matches_extend r p q :
  Matches r p q -> no_eol r = true ->
  forall t, Matches r (fst p, snd p +:+ t) (fst q, snd q +:+ t).
Proof.
  induction 1 as [p|c b s|c b s Hc|s|b s He
                  |r1 r2 p q t' _ IH1 _ IH2
                  |r1 r2 p q _ IH|r1 r2 p q _ IH
                  |r p|r p q t' _ IH1 _ IH2];
    cbn [no_eol fst snd]; intros Hn t; try discriminate.
  - constructor.
  - cbn [String.append]. constructor.
  - cbn [String.append]. now constructor.
  - constructor.
  - apply andb_true_iff in Hn as [Hn1 Hn2].
    eapply M_Cat; [apply IH1|apply IH2]; assumption.
  - apply andb_true_iff in Hn as [Hn1 Hn2]. apply M_AltL, IH; assumption.
  - apply andb_true_iff in Hn as [Hn1 Hn2]. apply M_AltR, IH; assumption.
  - constructor.
  - eapply M_StarS; [apply IH1|apply IH2]; assumption.
Qed.

(** For such a pattern, a subject that begins with a text the pattern
    matches in full is matched by [re.match]. *)
Theorem re_match_of_fullmatch_prefix r m rest :
  no_eol r = true -> re_fullmatch r m = true ->
  re_match r (m +:+ rest) = true.
Proof.
  intros Hn [b Hm]%re_fullmatch_spec. apply re_match_spec.
  exists m, rest, b. split; [reflexivity|].
  apply (Matches_extend _ _ _ Hm Hn rest).
Qed.

End ReFacts.

Import PyStrFacts PyNumFacts ReFacts.

(** ** Properties of the script *)

(** *** Computations *)

Lemma bind_Ok_inv {A B} (m : M A) (k : A -> M B) evs b :
  bind m k = (evs, Ok b) ->
  exists e1 a e2, m = (e1, Ok a) /\ k a = (e2, Ok b) /\ evs = e1 ++ e2.
Proof.
  destruct m as [e1 [a|n|e]]; cbn [bind]; try discriminate.
  destruct (k a) as [e2 r] eqn:Hk. intros [= <- ->]. now exists e1, a, e2.
Qed.

Lemma bind_ret_l {A B} (a : A) (k : A -> M B) : bind (ret a) k = k a.
Proof. unfold ret; cbn [bind]. now destruct (k a). Qed.

Lemma bind_ext {A B} (m : M A) (k1 k2 : A -> M B) :
  (forall a, k1 a = k2 a) -> bind m k1 = bind m k2.
Proof.
  intros H. destruct m as [e [a|n|x]]; cbn [bind]; [|reflexivity..].
  now rewrite H.
Qed.

Lemma bind_pure {A B} (a : A) (k : A -> M B) : bind ([], Ok a) k = k a.
Proof. exact (bind_ret_l a k). Qed.

(** *** The name filter is a function of the name and the patterns *)

Lemma whitelist_blacklist_check_includes a name :
  whitelist_blacklist_check a name =
    match includes a name with
    | Some b => ret b
    | None => raise ReError
    end.
Proof.
  unfold whitelist_blacklist_check, includes, py_re_match.
  destruct (truthy_opt (whitelist_regex a)).
  - destruct (re_compile _) as [r|]; [|reflexivity].
    rewrite bind_ret_l. cbn [option_map]. now destruct (re_match r name).
  - destruct (truthy_opt (blacklist_regex a)); [|reflexivity].
    destruct (re_compile _) as [r|]; [|reflexivity].
    rewrite bind_ret_l. cbn [option_map]. now destruct (re_match r name).
Qed.

(** The empty pattern compiles to the pattern that matches at the start
    of every name. *)
Lemma empty_pattern_matches_all :
  re_compile "" = Some Eps /\ forall name, re_match Eps name = true.
Proof. split; reflexivity. Qed.


(** C3. The name filter: with a (non-empty) allow pattern a name is
    included exactly when the pattern matches some prefix of it, read
    from its start; with a (non-empty) deny pattern and no allow pattern
    it is included exactly when the pattern matches no such prefix; with
    neither, every name is included.  The match is not a full-string
    match: the allow pattern [rx] includes [rx_packets], which it does
    not match in full. *)
Theorem C3_name_filter :
  (forall a name p r,
      whitelist_regex a = Some p -> truthy p = true ->
      re_compile p = Some r ->
      whitelist_blacklist_check a name = ([], Ok (re_match r name))
      /\ (re_match r name = true <->
          exists m rest b,
            name = m +:+ rest /\ Matches r (true, name) (b, rest)))
  /\ (forall a name p r,
      truthy_opt (whitelist_regex a) = false ->
      blacklist_regex a = Some p -> truthy p = true ->
      re_compile p = Some r ->
      whitelist_blacklist_check a name = ([], Ok (negb (re_match r name)))
      /\ (negb (re_match r name) = true <->
          ~ exists m rest b,
              name = m +:+ rest /\ Matches r (true, name) (b, rest)))
  /\ (forall a name,
      truthy_opt (whitelist_regex a) = false ->
      truthy_opt (blacklist_regex a) = false ->
      whitelist_blacklist_check a name = ([], Ok true))
  /\ (forall tf li iv ir os,
      whitelist_blacklist_check (mkArgs tf li iv ir os (Some "rx") None)
                                "rx_packets" = ([], Ok true)
      /\ option_map (fun r => re_fullmatch r "rx_packets") (re_compile "rx")
         = Some false).
Proof.
  split; [|split; [|split]].
  - intros a name p r Hw Hp Hc. split; [|apply re_match_spec].
    rewrite whitelist_blacklist_check_includes. unfold includes.
    rewrite Hw. cbn [truthy_opt from_option id]. rewrite Hp, Hc. reflexivity.
  - intros a name p r Hw Hb Hp Hc. split.
    + rewrite whitelist_blacklist_check_includes. unfold includes.
      rewrite Hw, Hb. cbn [truthy_opt from_option id]. rewrite Hp, Hc. reflexivity.
    + split.
      * intros Hn Hex. apply re_match_spec in Hex. rewrite Hex in Hn.
        discriminate.
      * intros Hn. destruct (re_match r name) eqn:Hm; [|reflexivity].
        exfalso. apply Hn. now apply re_match_spec.
  - intros a name Hw Hb.
    rewrite whitelist_blacklist_check_includes. unfold includes.
    now rewrite Hw, Hb.
  - intros tf li iv ir os. split; reflexivity.
Qed.

Lemma C3_name_filter_witness :
  whitelist_blacklist_check
    (mkArgs None None 5 ".*" false (Some "rx_") None) "rx_errors"
  = ([], Ok true)
  /\ whitelist_blacklist_check
    (mkArgs None None 5 ".*" false None (Some "rx_")) "rx_errors"
  = ([], Ok false)
  /\ whitelist_blacklist_check
    (mkArgs None None 5 ".*" false None None) "rx_errors"
  = ([], Ok true).
Proof.
  destruct C3_name_filter as (Hallow & Hdeny & Hnone & _).
  split; [|split].
  - exact (proj1 (Hallow (mkArgs None None 5 ".*" false (Some "rx_") None)
                    "rx_errors" "rx_" _ eq_refl eq_refl eq_refl)).
  - exact (proj1 (Hdeny (mkArgs None None 5 ".*" false None (Some "rx_"))
                    "rx_errors" "rx_" _ eq_refl eq_refl eq_refl eq_refl)).
  - exact (Hnone (mkArgs None None 5 ".*" false None None) "rx_errors"
             eq_refl eq_refl).
Defined.

(** C9. An empty deny pattern, like an empty allow pattern, is treated
    as absent: the filter decides as if the option had not been given,
    so with no other pattern every name is included, although the empty
    pattern matches at the start of every name. *)
Theorem C9_empty_pattern_is_no_filter :
  (forall tf li iv ir os wl name,
      whitelist_blacklist_check (mkArgs tf li iv ir os wl (Some "")) name
      = whitelist_blacklist_check (mkArgs tf li iv ir os wl None) name)
  /\ (forall tf li iv ir os bl name,
      whitelist_blacklist_check (mkArgs tf li iv ir os (Some "") bl) name
      = whitelist_blacklist_check (mkArgs tf li iv ir os None bl) name)
  /\ (forall tf li iv ir os name,
      whitelist_blacklist_check (mkArgs tf li iv ir os None (Some "")) name
      = ([], Ok true))
  /\ (forall tf li iv ir os name,
      whitelist_blacklist_check (mkArgs tf li iv ir os (Some "") None) name
      = ([], Ok true))
  /\ re_compile "" = Some Eps
  /\ (forall name, re_match Eps name = true).
Proof.
  split; [|split; [|split; [|split; [|split]]]]; reflexivity.
Qed.

(** *** The counter parser *)

Lemma sep_nonempty : ": " <> EmptyString.
Proof. discriminate. Qed.

Lemma split_two_parts s name value :
  partition ": " s = Some (name, value) ->
  partition ": " value = None ->
  split ": " s = [name; value].
Proof.
  intros H1 H2. rewrite (split_unfold _ _ sep_nonempty), H1.
  now rewrite (split_unfold _ _ sep_nonempty), H2.
Qed.

Lemma split_more_parts s name value a b :
  partition ": " s = Some (name, value) ->
  partition ": " value = Some (a, b) ->
  exists x l, split ": " s = name :: a :: x :: l.
Proof.
  intros H1 H2. rewrite (split_unfold _ _ sep_nonempty), H1.
  rewrite (split_unfold _ _ sep_nonempty), H2.
  rewrite (split_unfold _ _ sep_nonempty).
  destruct (partition ": " b) as [[c d]|]; eauto.
Qed.

(** A value part that still holds a separator is not a number. *)
Lemma float_of_part_with_separator value a b :
  partition ": " value = Some (a, b) -> py_float (strip value) = None.
Proof.
  intros Hp. destruct (py_float (strip value)) as [v|] eqn:Hf; [|reflexivity].
  apply py_float_no_colon in Hf.
  unfold strip in Hf. rewrite mem_char_strip_by in Hf by reflexivity.
  apply partition_mem_char in Hp. congruence.
Qed.

(** Cutting at every separator and asking for two parts accepts the same
    lines, with the same result, as cutting at the first separator. *)
Lemma parse_line_refines line : parse_line line = spec_parse_line line.
Proof.
  unfold parse_line, spec_parse_line.
  destruct (negb (truthy line) || (line =? "NIC statistics:")%string);
    [reflexivity|]. cbv zeta.
  destruct (partition ": " (strip line)) as [[name value]|] eqn:H1.
  - destruct (partition ": " value) as [[a b]|] eqn:H2.
    + destruct (split_more_parts _ _ _ _ _ H1 H2) as (x & l & ->).
      now rewrite (float_of_part_with_separator _ _ _ H2).
    + now rewrite (split_two_parts _ _ _ H1 H2).
  - now rewrite (split_unfold _ _ sep_nonempty), H1.
Qed.

Lemma foldM_cons {A B} (f : A -> B -> M A) a x l :
  foldM f a (x :: l) = bind (f a x) (fun a' => foldM f a' l).
Proof. reflexivity. Qed.

Lemma bind_events_ret {A B} e (a : A) (f : A -> B) :
  bind (e, Ok a) (fun x => ret (f x)) = (e, Ok (f a)).
Proof. unfold ret; cbn [bind]. now rewrite app_nil_r. Qed.

Lemma bind_emit {A} (e : event) (m : M A) :
  bind (emit e) (fun _ => m) = (e :: fst m, snd m).
Proof. unfold emit; cbn [bind]. now destruct m. Qed.

(** C2. The counter parser.  A line whose trimmed text is cut by its
    first [": "] into a name part and a value part that reads as a
    number yields the pair of the trimmed name and that number; an empty
    line and the header line yield nothing; a line without the separator
    or whose value part is not a number yields nothing but one warning,
    the loop state is unchanged and the loop goes on with the lines that
    follow. *)
Theorem C2_counter_parser :
  (forall line, parse_line line = spec_parse_line line)
  /\ (forall line name value v,
      truthy line = true -> line <> "NIC statistics:" ->
      partition ": " (strip line) = Some (name, value) ->
      py_float (strip value) = Some v ->
      parse_line line = Pair (strip name) v)
  /\ (forall line,
      line = EmptyString \/ line = "NIC statistics:" ->
      parse_line line = Skipped
      /\ forall a iface st, process_line a iface st line = ([], Ok st))
  /\ (forall line,
      truthy line = true -> line <> "NIC statistics:" ->
      partition ": " (strip line) = None
      \/ (exists name value,
            partition ": " (strip line) = Some (name, value)
            /\ py_float (strip value) = None) ->
      parse_line line = Failed (strip line)
      /\ forall a iface st rest,
          process_line a iface st line
          = ([failed_parsing (strip line)], Ok st)
          /\ foldM (process_line a iface) st (line :: rest)
             = (failed_parsing (strip line)
                  :: fst (foldM (process_line a iface) st rest),
                snd (foldM (process_line a iface) st rest))).
Proof.
  split; [exact parse_line_refines|].
  split; [|split].
  - intros line name value v Ht Hh Hp Hf.
    rewrite parse_line_refines. unfold spec_parse_line.
    rewrite Ht. apply String.eqb_neq in Hh. rewrite Hh. cbn [negb orb].
    cbv zeta. now rewrite Hp, Hf.
  - intros line Hl.
    assert (Hs : parse_line line = Skipped).
    { unfold parse_line. now destruct Hl as [-> | ->]. }
    split; [exact Hs|]. intros a iface [ks g]. unfold process_line.
    now rewrite Hs.
  - intros line Ht Hh Hbad.
    assert (Hf : parse_line line = Failed (strip line)).
    { rewrite parse_line_refines. unfold spec_parse_line.
      rewrite Ht. apply String.eqb_neq in Hh. rewrite Hh. cbn [negb orb].
      cbv zeta. destruct Hbad as [-> | (name & value & -> & ->)];
        reflexivity. }
    split; [exact Hf|]. intros a iface [ks g] rest.
    assert (Hstep : process_line a iface (ks, g) line
                    = ([failed_parsing (strip line)], Ok (ks, g))).
    { unfold process_line. rewrite Hf. reflexivity. }
    split; [exact Hstep|].
    rewrite foldM_cons, Hstep. cbn [bind].
    now destruct (foldM (process_line a iface) (ks, g) rest).
Qed.

Lemma C2_counter_parser_witness :
  parse_line "     rx_packets: 100" = Pair "rx_packets" (float_of_Z 100)
  /\ parse_line "NIC statistics:" = Skipped
  /\ parse_line "rx_packets 100" = Failed "rx_packets 100"
  /\ parse_line "rx_packets: many" = Failed "rx_packets: many".
Proof.
  destruct C2_counter_parser as (_ & Hgood & Hskip & Hbad).
  split; [|split; [|split]].
  - exact (Hgood "     rx_packets: 100" "rx_packets" "100" (float_of_Z 100)
             eq_refl ltac:(discriminate) eq_refl eq_refl).
  - exact (proj1 (Hskip "NIC statistics:" (or_intror eq_refl))).
  - exact (proj1 (Hbad "rx_packets 100" eq_refl ltac:(discriminate)
                    (or_introl eq_refl))).
  - exact (proj1 (Hbad "rx_packets: many" eq_refl ltac:(discriminate)
                    (or_intror (ex_intro _ "rx_packets"
                       (ex_intro _ "many" (conj eq_refl eq_refl)))))).
Defined.

(** *** The snapshot builder: one interface *)

Lemma first_value_cons k key value l :
  first_value k ((key, value) :: l) =
    if (key =? k)%string then Some value else first_value k l.
Proof.
  unfold first_value. cbn [List.find fst].
  now destruct (key =? k)%string.
Qed.

Lemma pairs_of_cons line rest :
  pairs_of (line :: rest) =
    match parse_line line with
    | Pair k v => (k, v) :: pairs_of rest
    | _ => pairs_of rest
    end.
Proof. unfold pairs_of. cbn [flat_map]. now destruct (parse_line line). Qed.

(** The body of the loop, case by case. *)
Lemma process_line_cases a iface ks g line :
  process_line a iface (ks, g) line =
    match parse_line line with
    | Skipped => ([], Ok (ks, g))
    | Failed l => ([failed_parsing l], Ok (ks, g))
    | Pair key value =>
        match includes a key with
        | None => ([], Uncaught ReError)
        | Some false => ([], Ok (ks, g))
        | Some true =>
            if bool_decide (key ∈ ks)
            then ([already_seen key iface], Ok (ks, g))
            else ([], Ok ({[key]} ∪ ks, add_metric g iface key value))
        end
    end.
Proof.
  unfold process_line. destruct (parse_line line) as [|l|key value];
    try reflexivity.
  rewrite whitelist_blacklist_check_includes.
  destruct (includes a key) as [[|]|]; try reflexivity.
  rewrite bind_ret_l. cbn [negb]. now destruct (bool_decide (key ∈ ks)).
Qed.

Lemma bind_events_Ok_inv {A B} e (a : A) (k : A -> M B) evs b :
  bind (e, Ok a) k = (evs, Ok b) ->
  exists e2, k a = (e2, Ok b) /\ evs = e ++ e2.
Proof.
  cbn [bind]. destruct (k a) as [e2 r]. intros [= <- ->]. now exists e2.
Qed.

(** [key_set.add(key)] *)
Lemma key_set_add_self (key : string) (ks : gset string) :
  key ∈ {[key]} ∪ ks.
Proof. apply elem_of_union. left. now apply elem_of_singleton. Qed.

Lemma key_set_add_old (k key : string) (ks : gset string) :
  k ∈ ks -> k ∈ {[key]} ∪ ks.
Proof. intros H. apply elem_of_union. now right. Qed.

Lemma key_set_add_inv (k key : string) (ks : gset string) :
  k ∈ {[key]} ∪ ks -> k = key \/ k ∈ ks.
Proof.
  intros [H|H]%elem_of_union; [left|now right].
  now apply elem_of_singleton in H.
Qed.

(** A counter that is filtered out, or whose name was added before,
    changes nothing to what the later lines contribute. *)
Lemma skip_pair a (ks : gset string) key value l
  (P : string -> pyfloat -> Prop) :
  (forall k v, P k v <->
     (k ∉ ks) /\ first_value k l = Some v /\ includes a k = Some true) ->
  key ∈ ks \/ includes a key <> Some true ->
  forall k v, P k v <->
     (k ∉ ks) /\ first_value k ((key, value) :: l) = Some v
     /\ includes a k = Some true.
Proof.
  intros Hv Hskip k v. rewrite Hv, first_value_cons.
  destruct (String.eqb_spec key k) as [->|_]; [|reflexivity].
  split; intros (Hk & Hf & Hc); exfalso;
    destruct Hskip as [Hin|Hn]; contradiction.
Qed.

(** What the loop over the lines of one interface adds to the gauge:
    [key_set] holds the names added, no name is added twice, and a name
    is added with the value of its first occurrence. *)
Lemma loop_invariant a iface : forall lines ks g evs ks' g',
  foldM (process_line a iface) (ks, g) lines = (evs, Ok (ks', g')) ->
  exists added,
    g' = g ++ added
    /\ Forall (fun s => s_iface s = iface) added
    /\ List.NoDup (map s_name added)
    /\ (forall k, In k (map s_name added) -> k ∉ ks)
    /\ (forall k, k ∈ ks' <-> k ∈ ks \/ In k (map s_name added))
    /\ (forall k v,
          In (iface, k, v) added <->
          (k ∉ ks) /\ first_value k (pairs_of lines) = Some v
          /\ includes a k = Some true).
Proof.
  induction lines as [|line rest IH]; intros ks g evs ks' g'.
  - cbn [foldM]. unfold ret. intros [= <- <- <-]. exists [].
    rewrite app_nil_r.
    split; [reflexivity|]. split; [constructor|]. split; [constructor|].
    split; [intros k []|]. split; [intros k; cbn [map In]; tauto|].
    intros k v. split; [intros []|].
    intros (_ & Hf & _). discriminate Hf.
  - rewrite foldM_cons, process_line_cases, pairs_of_cons.
    destruct (parse_line line) as [|l|key value].
    + intros (e2 & H & _)%bind_events_Ok_inv. exact (IH _ _ _ _ _ H).
    + intros (e2 & H & _)%bind_events_Ok_inv. exact (IH _ _ _ _ _ H).
    + destruct (includes a key) as [[|]|] eqn:Hinc; [| |discriminate].
      * destruct (decide (key ∈ ks)) as [Hin|Hnin].
        -- rewrite bool_decide_eq_true_2 by assumption.
           intros (e2 & H & _)%bind_events_Ok_inv.
           destruct (IH _ _ _ _ _ H)
             as (added & -> & Hi & Hnd & Hks & Hmem & Hv).
           exists added. do 5 (split; [assumption || reflexivity|]).
           apply skip_pair; [exact Hv|now left].
        -- rewrite bool_decide_eq_false_2 by assumption.
           intros (e2 & H & _)%bind_events_Ok_inv.
           destruct (IH _ _ _ _ _ H)
             as (added & -> & Hi & Hnd & Hks & Hmem & Hv).
           exists ((iface, key, value) :: added). unfold add_metric.
           rewrite <- app_assoc. split; [reflexivity|].
           split; [now constructor|].
           split; [cbn [map]; constructor; [|assumption];
                   intros Hk; apply Hks in Hk; apply Hk, key_set_add_self|].
           split.
           { intros k [<-|Hk]; [assumption|].
             apply Hks in Hk. intros Hin. now apply Hk, key_set_add_old. }
           split.
           { intros k. rewrite Hmem. cbn [map In]. unfold s_name at 1.
             cbn [fst snd]. split.
             - intros [[->|Hk]%key_set_add_inv|Hk]; auto.
             - intros [Hk|[<-|Hk]]; auto using key_set_add_old, key_set_add_self. }
           intros k v. rewrite first_value_cons. split.
           ++ intros [[= -> ->]|Hin].
              ** rewrite String.eqb_refl. now split.
              ** apply Hv in Hin as (Hk & Hf & Hc).
                 destruct (String.eqb_spec key k) as [->|_];
                   [exfalso; apply Hk, key_set_add_self|].
                 split; [|now split].
                 intros Hin. now apply Hk, key_set_add_old.
           ++ intros (Hk & Hf & Hc).
              destruct (String.eqb_spec key k) as [->|Hne].
              ** left. congruence.
              ** right. apply Hv. split; [|now split].
                 intros [E|E]%key_set_add_inv; [congruence|contradiction].
      * intros (e2 & H & _)%bind_events_Ok_inv.
        destruct (IH _ _ _ _ _ H)
          as (added & -> & Hi & Hnd & Hks & Hmem & Hv).
        exists added. do 5 (split; [assumption || reflexivity|]).
        apply skip_pair; [exact Hv|right; congruence].
Qed.

(** With a filter that can be compiled the loop always completes. *)
Lemma loop_completes a iface :
  (forall k, includes a k <> None) ->
  forall lines st, exists evs st',
    foldM (process_line a iface) st lines = (evs, Ok st').
Proof.
  intros Hinc; induction lines as [|line rest IH]; intros [ks g].
  - now exists [], (ks, g).
  - rewrite foldM_cons, process_line_cases.
    assert (Hgo : forall e st1, exists evs st',
               bind (e, Ok st1)
                    (fun a' => foldM (process_line a iface) a' rest)
               = (evs, Ok st')).
    { intros e st1. destruct (IH st1) as (e2 & st' & H). cbn [bind].
      rewrite H. now exists (e ++ e2), st'. }
    destruct (parse_line line) as [|l|key value]; try apply Hgo.
    destruct (includes a key) as [[|]|] eqn:Hk; try apply Hgo.
    + destruct (bool_decide (key ∈ ks)); apply Hgo.
    + now apply Hinc in Hk.
Qed.

(** What one call of [update_ethtool_stats] adds to the gauge, whatever
    the command returned. *)
Lemma update_ethtool_stats_adds w a iface g evs g' :
  update_ethtool_stats w a iface g = (evs, Ok g') ->
  exists added,
    g' = g ++ added
    /\ Forall (fun s => s_iface s = iface) added
    /\ List.NoDup (map s_name added).
Proof.
  unfold update_ethtool_stats.
  destruct (ethtool w iface) as [|e| |rc data]; try discriminate.
  destruct (rc =? 0); cbn [negb].
  - intros (e1 & [ks1 g1] & e2 & H & Hk & _)%bind_Ok_inv.
    cbn [snd] in Hk. injection Hk as _ <-.
    destruct (loop_invariant _ _ _ _ _ _ _ _ H) as (added & -> & Hi & Hn & _).
    now exists added.
  - rewrite bind_emit. intros [= <- <-]. exists []. rewrite app_nil_r.
    repeat constructor.
Qed.

(** *** The snapshot builder: one tick *)

Lemma physical_result a d :
  (exists b, physical a d = ([], Ok b))
  \/ physical a d = ([], Uncaught ReError).
Proof.
  unfold physical, py_re_match. destruct (d_link d) as [target|]; [|now left; eexists].
  destruct (negb (contains "virtual" target)); [|now left; eexists].
  destruct (re_compile (interface_regex a)); [now left; eexists|now right].
Qed.

Lemma collect_entry_adds w a g d evs g' :
  collect_entry w a g d = (evs, Ok g') ->
  exists added,
    g' = g ++ added
    /\ Forall (fun s => s_iface s = d_name d) added
    /\ List.NoDup (map s_name added).
Proof.
  unfold collect_entry.
  destruct (physical_result a d) as [[b ->]| ->]; [|discriminate].
  rewrite bind_pure. destruct b.
  - apply update_ethtool_stats_adds.
  - intros [= <- <-]. exists []. rewrite app_nil_r. repeat constructor.
Qed.

Lemma labels_of_one_interface iface added :
  Forall (fun s => s_iface s = iface) added ->
  List.NoDup (map s_name added) ->
  List.NoDup (map s_labels added).
Proof.
  induction 1 as [|[[i k] v] l Hi _ IH]; cbn [map]; [constructor|].
  intros Hn. inversion Hn as [|? ? Hk Hl]; subst. constructor; [|now apply IH].
  intros Hin. apply Hk. apply in_map_iff in Hin as ([[i' k'] v'] & E & Hin).
  apply in_map_iff. exists (i', k', v'). split; [|assumption].
  unfold s_labels in E. cbn [fst] in E. unfold s_name. cbn [fst snd]. congruence.
Qed.

Lemma collect_adds w a : forall entries g evs g',
  List.NoDup (map d_name entries) ->
  foldM (collect_entry w a) g entries = (evs, Ok g') ->
  exists added,
    g' = g ++ added
    /\ Forall (fun s => In (s_iface s) (map d_name entries)) added
    /\ List.NoDup (map s_labels added).
Proof.
  induction entries as [|d rest IH]; intros g evs g' Hnd.
  - intros [= <- <-]. exists []. rewrite app_nil_r. repeat constructor.
  - rewrite foldM_cons. intros (e1 & g1 & e2 & H1 & H2 & _)%bind_Ok_inv.
    cbn [map] in Hnd. inversion Hnd as [|? ? Hd Hrest]; subst.
    destruct (collect_entry_adds _ _ _ _ _ _ H1) as (add1 & -> & Hi1 & Hn1).
    destruct (IH _ _ _ Hrest H2) as (add2 & -> & Hi2 & Hn2).
    exists (add1 ++ add2). rewrite <- app_assoc. split; [reflexivity|].
    split.
    + apply Forall_app_2.
      * eapply List.Forall_impl; [|exact Hi1]. intros s ->. now left.
      * eapply List.Forall_impl; [|exact Hi2]. intros s Hs. now right.
    + rewrite map_app. apply List.NoDup_app.
      * now apply (labels_of_one_interface (d_name d)).
      * assumption.
      * intros [i k] Hin1 Hin2. apply Hd.
        apply in_map_iff in Hin1 as (s1 & E1 & Hs1).
        apply in_map_iff in Hin2 as (s2 & E2 & Hs2).
        rewrite List.Forall_forall in Hi1, Hi2.
        specialize (Hi1 _ Hs1). specialize (Hi2 _ Hs2).
        unfold s_iface, s_labels in *. rewrite E2 in Hi2. rewrite E1 in Hi1.
        cbn [fst] in *. now subst.
Qed.

Lemma names_for_NoDup iface g :
  List.NoDup (map s_labels g) -> List.NoDup (names_for iface g).
Proof.
  unfold names_for. induction g as [|[[i k] v] g IH]; cbn [map List.filter];
    [constructor|].
  intros Hn. inversion Hn as [|? ? Hk Hl]; subst. unfold s_iface at 1.
  cbn [fst]. destruct (String.eqb_spec i iface) as [->|_]; [|now apply IH].
  cbn [map]. constructor; [|now apply IH].
  intros Hin. apply Hk. apply in_map_iff in Hin as ([[i' k'] v'] & E & Hin).
  apply filter_In in Hin as [Hin Hi]. apply String.eqb_eq in Hi.
  unfold s_name, s_iface in *. cbn [fst snd] in *. subst.
  apply in_map_iff. now exists (iface, k, v').
Qed.

(** C1. The counter names added to the snapshot for one interface are
    pairwise distinct, in one call of [update_ethtool_stats] and, when
    the listing names each interface once, in the snapshot of a tick;
    a name is added with the value of its first occurrence; a line
    whose name has been added for the interface leaves the gauge as it
    is, emits one warning and the loop goes on; and the worked example
    yields the two samples of [rx_packets] = 100 and [rx_errors] = 0. *)
Theorem C1_names_unique_per_interface :
  (forall w a iface g0 data evs g,
      ethtool w iface = Ran 0 data ->
      update_ethtool_stats w a iface g0 = (evs, Ok g) ->
      exists added,
        g = g0 ++ added
        /\ Forall (fun s => s_iface s = iface) added
        /\ List.NoDup (map s_name added)
        /\ forall k v,
            In (iface, k, v) added <->
            first_value k (pairs_of (split NL data)) = Some v
            /\ includes a k = Some true)
  /\ (forall w a entries evs g,
      listdir w = Some entries ->
      List.NoDup (map d_name entries) ->
      collect w a = (evs, Ok g) ->
      forall iface, List.NoDup (names_for iface g))
  /\ (forall a iface g0 before evs ks g added line key v,
      foldM (process_line a iface) (∅, g0) before = (evs, Ok (ks, g)) ->
      g = g0 ++ added ->
      In key (map s_name added) ->
      parse_line line = Pair key v ->
      process_line a iface (ks, g) line
      = ([already_seen key iface], Ok (ks, g)))
  /\ (forall w a iface g0 data,
      ethtool w iface = Ran 0 data ->
      (forall k, includes a k <> None) ->
      exists evs g, update_ethtool_stats w a iface g0 = (evs, Ok g))
  /\ (forall w tf li iv ir os,
      ethtool w "eth0" = Ran 0 NIC_example ->
      update_ethtool_stats w (mkArgs tf li iv ir os None None) "eth0" []
      = ([already_seen "rx_packets" "eth0"],
         Ok [("eth0", "rx_packets", float_of_Z 100);
             ("eth0", "rx_errors", float_of_Z 0)])).
Proof.
  split; [|split; [|split; [|split]]].
  - intros w a iface g0 data evs g Hrun. unfold update_ethtool_stats.
    rewrite Hrun. cbn [Z.eqb negb].
    intros (e1 & [ks1 g1] & e2 & H & Hk & _)%bind_Ok_inv.
    cbn [snd] in Hk. injection Hk as _ <-.
    destruct (loop_invariant _ _ _ _ _ _ _ _ H)
      as (added & -> & Hi & Hn & _ & _ & Hv).
    exists added. do 3 (split; [assumption || reflexivity|]).
    intros k v. rewrite Hv. split; [tauto|].
    intros [Hf Hc]. split; [apply not_elem_of_empty|now split].
  - intros w a entries evs g Hl Hnd. unfold collect. rewrite Hl. intros H iface.
    destruct (collect_adds _ _ _ _ _ _ Hnd H) as (added & -> & _ & Hn).
    now apply names_for_NoDup.
  - intros a iface g0 before evs ks g added line key v Hloop Hg Hin Hp.
    destruct (loop_invariant _ _ _ _ _ _ _ _ Hloop)
      as (added' & Hg' & Hi & _ & _ & Hmem & Hv).
    assert (E : g0 ++ added' = g0 ++ added) by congruence.
    apply List.app_inv_head in E. subst added'.
    assert (Hks : key ∈ ks) by (apply Hmem; now right).
    assert (Hinc : includes a key = Some true).
    { apply in_map_iff in Hin as ([[i k] v0] & E & Hin).
      unfold s_name in E; cbn [fst snd] in E; subst k.
      rewrite List.Forall_forall in Hi. pose proof (Hi _ Hin) as Ei.
      unfold s_iface in Ei; cbn [fst] in Ei; subst i.
      now apply Hv in Hin. }
    rewrite process_line_cases, Hp, Hinc.
    now rewrite bool_decide_eq_true_2.
  - intros w a iface g0 data Hrun Hinc. unfold update_ethtool_stats.
    rewrite Hrun. cbn [Z.eqb negb].
    destruct (loop_completes a iface Hinc (split NL data) (∅, g0))
      as (evs & st' & ->).
    rewrite bind_events_ret. eauto.
  - intros w tf li iv ir os Hrun. unfold update_ethtool_stats.
    rewrite Hrun. vm_compute. reflexivity.
Qed.

Lemma C1_names_unique_per_interface_witness :
  (exists added,
      [("eth0", "rx_packets", float_of_Z 100);
       ("eth0", "rx_errors", float_of_Z 0)] = [] ++ added
      /\ Forall (fun s => s_iface s = "eth0") added
      /\ List.NoDup (map s_name added)
      /\ forall k v,
          In ("eth0", k, v) added <->
          first_value k (pairs_of (split NL NIC_example)) = Some v
          /\ includes (args_of oneshot_cmdline) k = Some true)
  /\ (forall iface,
      List.NoDup
        (names_for iface
           [("eth0", "rx_packets", float_of_Z 100);
            ("eth0", "rx_errors", float_of_Z 0)]))
  /\ process_line (args_of oneshot_cmdline) "eth0"
       ({["rx_packets"]} ∪ ∅, [("eth0", "rx_packets", float_of_Z 100)])
       "rx_packets: 999"
     = ([already_seen "rx_packets" "eth0"],
        Ok ({["rx_packets"]} ∪ ∅, [("eth0", "rx_packets", float_of_Z 100)]))
  /\ (exists evs g,
      update_ethtool_stats world_example (args_of oneshot_cmdline) "eth0" []
      = (evs, Ok g))
  /\ update_ethtool_stats world_example
       (mkArgs None None 5 ".*" false None None) "eth0" []
     = ([already_seen "rx_packets" "eth0"],
        Ok [("eth0", "rx_packets", float_of_Z 100);
            ("eth0", "rx_errors", float_of_Z 0)]).
Proof.
  destruct C1_names_unique_per_interface
    as (Hcall & Htick & Hdup & Hok & Hexample).
  split; [|split; [|split; [|split]]].
  - exact (Hcall world_example (args_of oneshot_cmdline) "eth0" [] NIC_example
             [already_seen "rx_packets" "eth0"] _ eq_refl eq_refl).
  - refine (Htick world_example (args_of oneshot_cmdline)
              sys_class_net_example [already_seen "rx_packets" "eth0"] _
              eq_refl _ eq_refl).
    repeat constructor; cbn [In map d_name sys_class_net_example];
      intuition discriminate.
  - refine (Hdup (args_of oneshot_cmdline) "eth0" [] ["rx_packets: 100"] []
              ({["rx_packets"]} ∪ ∅) _
              [("eth0", "rx_packets", float_of_Z 100)]
              "rx_packets: 999" "rx_packets" (float_of_Z 999)
              eq_refl eq_refl (or_introl eq_refl) eq_refl).
  - refine (Hok world_example (args_of oneshot_cmdline) "eth0" []
              NIC_example eq_refl _).
    intros k. discriminate.
  - exact (Hexample world_example None None 5 ".*" false eq_refl).
Defined.

(** The second worked example: with the deny pattern [^rx_errors$] the
    same text yields the sample of [rx_packets] only. *)
Example deny_pattern_example :
  update_ethtool_stats world_example
    (mkArgs (Some "/tmp/ethtool.prom") None 5 ".*" true None
            (Some "^rx_errors$"))
    "eth0" []
  = ([already_seen "rx_packets" "eth0"],
     Ok [("eth0", "rx_packets", float_of_Z 100)]).
Proof. vm_compute. reflexivity. Qed.

(** *** The interface enumerator *)

Lemma physical_compiled a r d :
  re_compile (interface_regex a) = Some r ->
  physical a d = ([], Ok (qualifies r d)).
Proof.
  intros Hc. unfold physical, qualifies, py_re_match.
  destruct (d_link d) as [target|]; [|reflexivity].
  destruct (negb (contains "virtual" target)); [|reflexivity].
  now rewrite Hc.
Qed.

Lemma find_compiled a r :
  re_compile (interface_regex a) = Some r ->
  forall entries acc,
    foldM (find_entry a) acc entries
    = ([], Ok (acc ++ map d_name (List.filter (qualifies r) entries))).
Proof.
  intros Hc; induction entries as [|d rest IH]; intros acc.
  - cbn [foldM List.filter map]. now rewrite app_nil_r.
  - rewrite foldM_cons. unfold find_entry at 1.
    rewrite (physical_compiled _ _ _ Hc), bind_pure. cbn [List.filter].
    destruct (qualifies r d); unfold ret; rewrite bind_pure, IH; [|reflexivity].
    cbn [map]. now rewrite <- app_assoc.
Qed.

(** [collect] processes the interfaces the enumerator yields, in order. *)
Lemma collect_over_interfaces w a r :
  re_compile (interface_regex a) = Some r ->
  forall entries g,
    foldM (collect_entry w a) g entries
    = foldM (fun g iface => update_ethtool_stats w a iface g) g
            (map d_name (List.filter (qualifies r) entries)).
Proof.
  intros Hc; induction entries as [|d rest IH]; intros g; [reflexivity|].
  rewrite foldM_cons. unfold collect_entry at 1.
  rewrite (physical_compiled _ _ _ Hc), bind_pure. cbn [List.filter].
  destruct (qualifies r d).
  - cbn [map]. rewrite foldM_cons. apply bind_ext. exact IH.
  - unfold ret. rewrite bind_pure. apply IH.
Qed.

Lemma qualifies_spec r d :
  qualifies r d = true <->
  exists target,
    d_link d = Some target /\ contains "virtual" target = false
    /\ re_match r (d_name d) = true.
Proof.
  unfold qualifies. destruct (d_link d) as [target|].
  - rewrite andb_true_iff, negb_true_iff. split.
    + intros [Hv Hm]. now exists target.
    + intros (t & [= <-] & Hv & Hm). now split.
  - split; [discriminate|]. intros (t & Ht & _). discriminate Ht.
Qed.



(** C10. The interface pattern is applied as [re.match] applies it: an
    entry (a link that is not virtual) is yielded as soon as the pattern
    matches some prefix of its name, read from the start of the name;
    for a pattern without [$] this is every name that begins with a text
    the pattern matches in full.  The pattern [eth0] yields [eth01],
    which it does not match in full. *)
Theorem C10_interface_pattern_is_prefix_match :
  (forall w a entries r d target m rest b,
      listdir w = Some entries ->
      re_compile (interface_regex a) = Some r ->
      In d entries -> d_link d = Some target ->
      contains "virtual" target = false ->
      d_name d = m +:+ rest ->
      Matches r (true, d_name d) (b, rest) ->
      exists names,
        find_physical_interfaces w a = ([], Ok names)
        /\ In (d_name d) names)
  /\ (forall w a entries r d target m rest,
      listdir w = Some entries ->
      re_compile (interface_regex a) = Some r ->
      In d entries -> d_link d = Some target ->
      contains "virtual" target = false ->
      no_eol r = true -> re_fullmatch r m = true ->
      d_name d = m +:+ rest ->
      exists names,
        find_physical_interfaces w a = ([], Ok names)
        /\ In (d_name d) names)
  /\ (forall w tf li iv os wl bl,
      listdir w = Some sys_class_net_prefix ->
      find_physical_interfaces w (mkArgs tf li iv "eth0" os wl bl)
      = ([], Ok ["eth0"; "eth01"]))
  /\ option_map (fun r => (re_match r "eth01", re_fullmatch r "eth01"))
                (re_compile "eth0")
     = Some (true, false).
Proof.
  assert (Hyield : forall w a entries r d target,
             listdir w = Some entries ->
             re_compile (interface_regex a) = Some r ->
             In d entries -> d_link d = Some target ->
             contains "virtual" target = false ->
             re_match r (d_name d) = true ->
             exists names,
               find_physical_interfaces w a = ([], Ok names)
               /\ In (d_name d) names).
  { intros w a entries r d target Hl Hc Hin Hd Hv Hm.
    exists (map d_name (List.filter (qualifies r) entries)). split.
    - unfold find_physical_interfaces. rewrite Hl.
      now rewrite (find_compiled _ _ Hc).
    - apply in_map, filter_In. split; [assumption|].
      apply qualifies_spec. now exists target. }
  split; [|split; [|split]].
  - intros w a entries r d target m rest b Hl Hc Hin Hd Hv Hn Hm.
    apply (Hyield w a entries r d target); try assumption.
    apply re_match_spec. now exists m, rest, b.
  - intros w a entries r d target m rest Hl Hc Hin Hd Hv Hne Hf Hn.
    apply (Hyield w a entries r d target); try assumption.
    rewrite Hn. now apply re_match_of_fullmatch_prefix.
  - intros w tf li iv os wl bl Hl. unfold find_physical_interfaces.
    rewrite Hl. reflexivity.
  - reflexivity.
Qed.

Lemma C10_interface_pattern_is_prefix_match_witness :
  (exists names,
      find_physical_interfaces
        (mkEnv (Some sys_class_net_prefix) (fun _ => FileNotFound))
        (mkArgs None None 5 "eth0" false None None)
      = ([], Ok names)
      /\ In "eth01" names)
  /\ (exists names,
      find_physical_interfaces
        (mkEnv (Some sys_class_net_prefix) (fun _ => FileNotFound))
        (mkArgs None None 5 "eth0$" false None None)
      = ([], Ok names)
      /\ In "eth0" names)
  /\ find_physical_interfaces
       (mkEnv (Some sys_class_net_prefix) (fun _ => FileNotFound))
       (mkArgs None None 5 "eth0" false None None)
     = ([], Ok ["eth0"; "eth01"]).
Proof.
  destruct C10_interface_pattern_is_prefix_match
    as (Hspan & Hfull & Hexample & _).
  split; [|split].
  - exact (Hfull
             (mkEnv (Some sys_class_net_prefix) (fun _ => FileNotFound))
             (mkArgs None None 5 "eth0" false None None)
             sys_class_net_prefix _
             (mkDirent "eth01"
                (Some "../../devices/pci0000:00/0000:00:04.0/net/eth01"))
             _ "eth0" "1" eq_refl eq_refl
             (or_intror (or_introl eq_refl)) eq_refl eq_refl eq_refl eq_refl
             eq_refl).
  - refine (Hspan
              (mkEnv (Some sys_class_net_prefix) (fun _ => FileNotFound))
              (mkArgs None None 5 "eth0$" false None None)
              sys_class_net_prefix _
              (mkDirent "eth0"
                 (Some "../../devices/pci0000:00/0000:00:03.0/net/eth0"))
              _ "eth0" EmptyString false eq_refl eq_refl
              (or_introl eq_refl) eq_refl eq_refl eq_refl _).
    apply ends_sound. now left.
  - exact (Hexample
             (mkEnv (Some sys_class_net_prefix) (fun _ => FileNotFound))
             None None 5 false None None eq_refl).
Defined.

(** *** The scheduler *)

Lemma foldM_app {A B} (f : A -> B -> M A) : forall l1 l2 a,
  foldM f a (l1 ++ l2) = bind (foldM f a l1) (fun a' => foldM f a' l2).
Proof.
  induction l1 as [|x l1 IH]; intros l2 a.
  - cbn [app foldM]. now rewrite bind_ret_l.
  - cbn [app]. rewrite !foldM_cons.
    destruct (f a x) as [e [a1|n|ex]]; cbn [bind]; try reflexivity.
    rewrite IH. destruct (foldM f a1 l1) as [e1 [a2|n|ex]]; cbn [bind];
      try reflexivity.
    destruct (foldM f a2 l2) as [e2 r2]. now rewrite app_assoc.
Qed.

(** A [sys.exit] of the collection pipeline has status 1. *)
Lemma process_line_no_exit a iface st line evs n :
  process_line a iface st line <> (evs, SysExit n).
Proof.
  destruct st as [ks g]. rewrite process_line_cases.
  destruct (parse_line line) as [|l|key value]; try discriminate.
  destruct (includes a key) as [[|]|]; try discriminate.
  destruct (bool_decide (key ∈ ks)); discriminate.
Qed.

Lemma foldM_exit_status {A B} (f : A -> B -> M A) (P : Z -> Prop) :
  (forall a x evs n, f a x = (evs, SysExit n) -> P n) ->
  forall l a evs n, foldM f a l = (evs, SysExit n) -> P n.
Proof.
  intros Hf; induction l as [|x l IH]; intros a evs n; [discriminate|].
  rewrite foldM_cons. destruct (f a x) as [e [a1|m|ex]] eqn:Hx; cbn [bind].
  - destruct (foldM f a1 l) as [e2 r2] eqn:Hl. intros [= <- ->].
    exact (IH _ _ _ Hl).
  - intros [= <- <-]. exact (Hf _ _ _ _ Hx).
  - discriminate.
Qed.

Lemma update_ethtool_stats_exit_status w a iface g evs n :
  update_ethtool_stats w a iface g = (evs, SysExit n) -> n = 1.
Proof.
  unfold update_ethtool_stats.
  destruct (ethtool w iface) as [|e| |rc data]; try discriminate.
  - now intros [= <- <-].
  - now intros [= <- <-].
  - destruct (negb (rc =? 0)); [discriminate|].
    destruct (foldM (process_line a iface) (∅, g) (split NL data))
      as [e1 [st|m|ex]] eqn:Hl; cbn [bind]; try discriminate.
    intros [= <- <-]. exfalso.
    revert Hl. apply (foldM_exit_status _ (fun _ => False)).
    intros st x e2 m' H. exact (process_line_no_exit _ _ _ _ _ _ H).
Qed.

Lemma collect_exit_status w a evs n :
  collect w a = (evs, SysExit n) -> n = 1.
Proof.
  unfold collect. destruct (listdir w) as [entries|]; [|discriminate].
  apply (foldM_exit_status _ (fun m => m = 1)). intros g d e m.
  unfold collect_entry.
  destruct (physical_result a d) as [[b ->]| ->]; [|discriminate].
  rewrite bind_pure. destruct b; [|discriminate].
  apply update_ethtool_stats_exit_status.
Qed.

(** The collection pipeline emits log records only. *)
Lemma foldM_only_logs {A B} (f : A -> B -> M A) :
  (forall a x, Forall is_log (fst (f a x))) ->
  forall l a, Forall is_log (fst (foldM f a l)).
Proof.
  intros Hf; induction l as [|x l IH]; intros a; [constructor|].
  rewrite foldM_cons. specialize (Hf a x).
  destruct (f a x) as [e [a1|m|ex]]; cbn [bind fst] in *; try assumption.
  specialize (IH a1). destruct (foldM f a1 l) as [e2 r2]. cbn [fst] in *.
  now apply Forall_app_2.
Qed.

Lemma process_line_only_logs a iface st line :
  Forall is_log (fst (process_line a iface st line)).
Proof.
  destruct st as [ks g]. rewrite process_line_cases.
  destruct (parse_line line) as [|l|key value];
    try (repeat constructor; fail).
  destruct (includes a key) as [[|]|]; try (repeat constructor; fail).
  destruct (bool_decide (key ∈ ks)); repeat constructor.
Qed.

Lemma update_ethtool_stats_only_logs w a iface g :
  Forall is_log (fst (update_ethtool_stats w a iface g)).
Proof.
  unfold update_ethtool_stats.
  destruct (ethtool w iface) as [|e| |rc data];
    try (repeat constructor; fail).
  destruct (negb (rc =? 0)); [repeat constructor|].
  pose proof (foldM_only_logs (process_line a iface)
                (process_line_only_logs a iface) (split NL data) (∅, g)) as H.
  destruct (foldM _ _ _) as [e1 [st|m|ex]];
    [rewrite bind_events_ret|cbn [bind]..]; cbn [fst] in *; assumption.
Qed.

Lemma collect_only_logs w a : Forall is_log (fst (collect w a)).
Proof.
  unfold collect. destruct (listdir w) as [entries|]; [|constructor].
  apply foldM_only_logs. intros g d. unfold collect_entry.
  destruct (physical_result a d) as [[b ->]| ->]; [|constructor].
  rewrite bind_pure. destruct b; [|constructor].
  apply update_ethtool_stats_only_logs.
Qed.

(** One round, by the outcome of its collection. *)
Lemma round_of_collect w a path :
  round w a path =
    match collect w a with
    | (evs, Ok g) =>
        if oneshot a then (evs ++ [WriteTextfile path g], SysExit 0)
        else
          match sleep_error (interval a) with
          | Some e => (evs ++ [WriteTextfile path g], Uncaught e)
          | None =>
              (evs ++ [WriteTextfile path g; Sleep (interval a)], Ok tt)
          end
    | (evs, SysExit n) => (evs, SysExit n)
    | (evs, Uncaught e) => (evs, Uncaught e)
    end.
Proof.
  unfold round, write_to_textfile, sleep, emit, sys_exit, raise.
  destruct (collect w a) as [evs [g|n|e]]; cbn [bind]; try reflexivity.
  destruct (oneshot a); [now rewrite app_nil_r|].
  destruct (sleep_error (interval a)) as [e|]; cbn [bind];
    [now rewrite app_nil_r|].
  now rewrite <- app_assoc.
Qed.

(** The loop stops at the first round that does not complete, with the
    outcome of that round. *)
Lemma file_loop_stops world a path : forall k tick fuel evs r,
  (forall j, (j < k)%nat -> completes (round (world (tick + j)%nat) a path)) ->
  round (world (tick + k)%nat) a path = (evs, r) ->
  (forall u, r <> Ok u) ->
  exists evs', file_loop world a path tick (k + S fuel) = (evs', Some r).
Proof.
  induction k as [|k IH]; intros tick fuel evs r Hbefore Hk Hr.
  - rewrite Nat.add_0_r in Hk. cbn [Nat.add file_loop]. rewrite Hk.
    destruct r as [u|n|e]; [now destruct (Hr u)|eauto..].
  - cbn [Nat.add file_loop].
    destruct (Hbefore 0%nat ltac:(lia)) as [e0 H0].
    rewrite Nat.add_0_r in H0. rewrite H0.
    destruct (IH (S tick) fuel evs r) as [evs' H']; [| |assumption|].
    + intros j Hj. replace (S tick + j)%nat with (tick + S j)%nat by lia.
      apply Hbefore. lia.
    + now replace (S tick + k)%nat with (tick + S k)%nat by lia.
    + rewrite H'. eauto.
Qed.

Lemma parse_args_file_mode c path :
  file_mode c path -> _parse_args c = ([], Ok (args_of c)).
Proof.
  intros (Ht & Hp & Hl & Hwb). unfold _parse_args, argparse.
  rewrite Ht, Hl, Hwb. cbn [is_some andb negb truthy_opt].
  rewrite Hp. cbn [negb]. rewrite !andb_false_r. reflexivity.
Qed.

Lemma main_file_mode c path world fuel :
  file_mode c path ->
  main c world fuel =
    (fst (file_loop world (args_of c) path 0 fuel),
     finish_with (snd (file_loop world (args_of c) path 0 fuel))).
Proof.
  intros Hfm. unfold main. rewrite (parse_args_file_mode _ _ Hfm).
  destruct Hfm as (Ht & Hp & Hl & _).
  cbn [args_of listen textfile_name]. rewrite Hl, Ht.
  cbn [truthy_opt from_option id]. rewrite Hp.
  now destruct (file_loop world (args_of c) path 0 fuel).
Qed.

(** In file mode, a round that ends the process gives it its status. *)
Lemma main_file_mode_stops c path world k fuel evs r :
  file_mode c path ->
  (forall j, (j < k)%nat -> completes (round (world j) (args_of c) path)) ->
  round (world k) (args_of c) path = (evs, r) ->
  (forall u, r <> Ok u) ->
  snd (main c world (k + S fuel)) = Terminated (exit_status r).
Proof.
  intros Hfm Hbefore Hk Hr. rewrite (main_file_mode _ _ _ _ Hfm). cbn [snd].
  destruct (file_loop_stops world (args_of c) path k 0%nat fuel evs r)
    as [evs' ->]; try assumption.
  reflexivity.
Qed.

Lemma parse_args_serve_mode c addr :
  serve_mode c addr -> _parse_args c = ([], Ok (args_of c)).
Proof.
  intros (Hl & Ha & Ht & Hwb & Ho & Hi). unfold _parse_args, argparse.
  rewrite Hl, Ht, Hwb, Ho, Hi. reflexivity.
Qed.

Lemma main_serve_mode c addr world fuel :
  serve_mode c addr ->
  main c world fuel =
    match split ":" addr with
    | [ip; port] =>
        match py_int port with
        | Some n =>
            if port_in_range n
            then (StartHttpServer ip n :: serve_loop fuel, StillRunning)
            else ([], Terminated 1)
        | None => ([], Terminated 1)
        end
    | _ => ([], Terminated 1)
    end.
Proof.
  intros Hsm. unfold main. rewrite (parse_args_serve_mode _ _ Hsm).
  destruct Hsm as (Hl & Ha & _). cbn [args_of listen]. rewrite Hl.
  cbn [truthy_opt from_option id]. now rewrite Ha.
Qed.

Lemma colon_nonempty : ":" <> EmptyString.
Proof. discriminate. Qed.

Lemma main_serve_started c addr world fuel ip port n :
  serve_mode c addr ->
  partition ":" addr = Some (ip, port) ->
  partition ":" port = None -> py_int port = Some n ->
  0 <= n <= 65535 ->
  main c world fuel = (StartHttpServer ip n :: serve_loop fuel, StillRunning).
Proof.
  intros Hsm Ha Hp Hn Hr. rewrite (main_serve_mode _ _ _ _ Hsm).
  rewrite (split_unfold _ _ colon_nonempty), Ha.
  rewrite (split_unfold _ _ colon_nonempty), Hp, Hn.
  unfold port_in_range.
  destruct (Z.leb_spec 0 n); [|lia]. destruct (Z.leb_spec n 65535); [|lia].
  reflexivity.
Qed.

(** In serve mode the process is the main thread and the requests the
    server answers. *)
Lemma serve_started c addr world scrapes fuel ip port n :
  serve_mode c addr ->
  partition ":" addr = Some (ip, port) ->
  partition ":" port = None -> py_int port = Some n ->
  0 <= n <= 65535 ->
  serve c world scrapes fuel
  = (StartHttpServer ip n :: serve_loop fuel,
     map (fun j => scrape (world j) (args_of c)) (seq 0 scrapes),
     StillRunning).
Proof.
  intros Hsm Ha Hp Hn Hr. unfold serve.
  rewrite (main_serve_started _ _ world fuel _ _ _ Hsm Ha Hp Hn Hr).
  now rewrite (parse_args_serve_mode _ _ Hsm).
Qed.

Lemma scrape_failed w a evs r :
  collect w a = (evs, r) -> (forall g, r <> Ok g) ->
  scrape w a = (evs, RequestFailed).
Proof.
  intros Hc Hr. unfold scrape. rewrite Hc.
  destruct r as [g|n|e]; [now destruct (Hr g)|reflexivity..].
Qed.

(** A fatal failure of the command at an enumerated interface ends the
    collection with [sys.exit(1)]. *)
Lemma collect_fatal w a r before d after e1 g ev :
  listdir w = Some (before ++ d :: after) ->
  re_compile (interface_regex a) = Some r ->
  qualifies r d = true ->
  foldM (collect_entry w a) [] before = (e1, Ok g) ->
  update_ethtool_stats w a (d_name d) g = ([ev], SysExit 1) ->
  collect w a = (e1 ++ [ev], SysExit 1).
Proof.
  intros Hl Hc Hq Hb Hu. unfold collect. rewrite Hl, foldM_app, Hb.
  cbn [bind]. rewrite foldM_cons. unfold collect_entry at 1.
  rewrite (physical_compiled _ _ _ Hc), bind_pure, Hq, Hu. reflexivity.
Qed.

Lemma update_not_found w a iface g :
  ethtool w iface = FileNotFound ->
  update_ethtool_stats w a iface g = ([not_found], SysExit 1).
Proof. intros H. unfold update_ethtool_stats. now rewrite H. Qed.

Lemma update_permission_error w a iface g e :
  ethtool w iface = PermissionDenied e ->
  update_ethtool_stats w a iface g = ([permission_error e], SysExit 1).
Proof. intros H. unfold update_ethtool_stats. now rewrite H. Qed.

Lemma update_nonzero_status w a iface g rc data :
  ethtool w iface = Ran rc data -> rc <> 0 ->
  update_ethtool_stats w a iface g = ([nonzero_status iface], Ok g).
Proof.
  intros H Hrc. unfold update_ethtool_stats. rewrite H.
  apply Z.eqb_neq in Hrc. now rewrite Hrc.
Qed.

Lemma round_fatal w a path evs r :
  collect w a = (evs, r) -> (forall g, r <> Ok g) ->
  exists r', round w a path = (evs, r')
             /\ (forall u, r' <> Ok u)
             /\ exit_status r' = match r with
                                 | SysExit n => n
                                 | _ => 1
                                 end.
Proof.
  intros Hc Hr. rewrite round_of_collect, Hc.
  destruct r as [g|n|e]; [now destruct (Hr g)| |].
  - exists (SysExit n). repeat split; discriminate.
  - exists (Uncaught e). repeat split; discriminate.
Qed.

(** C4. The three tiers of the counter fetcher: a missing binary and a
    permission error end the call with [sys.exit(1)]; a non-zero exit
    status is logged, leaves the gauge as it was, and the collection
    goes on with the entries that follow.  In file mode the
    [sys.exit(1)] terminates the process with status 1.  In serve mode
    it does not: the collection runs in a thread of the HTTP server, the
    exit ends the request in which it occurs, and the process keeps
    running and answers the requests that follow. *)
Theorem C4_fetcher_failure_tiers :
  (forall w a iface g,
      ethtool w iface = FileNotFound ->
      update_ethtool_stats w a iface g = ([not_found], SysExit 1))
  /\ (forall w a iface g e,
      ethtool w iface = PermissionDenied e ->
      update_ethtool_stats w a iface g = ([permission_error e], SysExit 1))
  /\ (forall w a iface g rc data,
      ethtool w iface = Ran rc data -> rc <> 0 ->
      update_ethtool_stats w a iface g = ([nonzero_status iface], Ok g))
  /\ (forall w a r d rest g rc data,
      re_compile (interface_regex a) = Some r ->
      qualifies r d = true ->
      ethtool w (d_name d) = Ran rc data -> rc <> 0 ->
      foldM (collect_entry w a) g (d :: rest)
      = (nonzero_status (d_name d)
           :: fst (foldM (collect_entry w a) g rest),
         snd (foldM (collect_entry w a) g rest)))
  /\ (forall c path world k fuel r before d after e1 g,
      file_mode c path ->
      (forall j, (j < k)%nat ->
                 completes (round (world j) (args_of c) path)) ->
      listdir (world k) = Some (before ++ d :: after) ->
      re_compile (interface_regex (args_of c)) = Some r ->
      qualifies r d = true ->
      foldM (collect_entry (world k) (args_of c)) [] before = (e1, Ok g) ->
      ethtool (world k) (d_name d) = FileNotFound
      \/ (exists e, ethtool (world k) (d_name d) = PermissionDenied e) ->
      snd (main c world (k + S fuel)) = Terminated 1)
  /\ (forall c addr world scrapes fuel ip port n,
      serve_mode c addr ->
      partition ":" addr = Some (ip, port) ->
      partition ":" port = None -> py_int port = Some n ->
      0 <= n <= 65535 ->
      serve c world scrapes fuel
      = (StartHttpServer ip n :: serve_loop fuel,
         map (fun j => scrape (world j) (args_of c)) (seq 0 scrapes),
         StillRunning))
  /\ (forall w a r before d after e1 g,
      listdir w = Some (before ++ d :: after) ->
      re_compile (interface_regex a) = Some r ->
      qualifies r d = true ->
      foldM (collect_entry w a) [] before = (e1, Ok g) ->
      ethtool w (d_name d) = FileNotFound
      \/ (exists e, ethtool w (d_name d) = PermissionDenied e) ->
      exists ev, scrape w a = (e1 ++ [ev], RequestFailed))
  /\ serve listen_cmdline
           (fun j => match j with
                     | O => world_without_ethtool
                     | S _ => world_example
                     end) 2 1
     = ([StartHttpServer "0.0.0.0" 9417; Sleep 3600],
        [([not_found], RequestFailed);
         ([already_seen "rx_packets" "eth0"],
          Served [("eth0", "rx_packets", float_of_Z 100);
                  ("eth0", "rx_errors", float_of_Z 0)])],
        StillRunning).
Proof.
  split; [exact update_not_found|].
  split; [exact update_permission_error|].
  split; [exact update_nonzero_status|].
  split; [|split; [|split; [|split]]].
  - intros w a r d rest g rc data Hc Hq Hrun Hrc.
    rewrite foldM_cons. unfold collect_entry at 1.
    rewrite (physical_compiled _ _ _ Hc), bind_pure, Hq.
    rewrite (update_nonzero_status _ _ _ _ _ _ Hrun Hrc). cbn [bind].
    now destruct (foldM (collect_entry w a) g rest).
  - intros c path world k fuel r before d after e1 g Hfm Hbefore Hl Hc Hq Hb
           Hfail.
    assert (Hcol : exists ev,
               collect (world k) (args_of c) = (e1 ++ [ev], SysExit 1)).
    { destruct Hfail as [Hnf|[e Hpe]].
      - exists not_found.
        apply (collect_fatal _ _ _ _ _ _ _ _ _ Hl Hc Hq Hb).
        now apply update_not_found.
      - exists (permission_error e).
        apply (collect_fatal _ _ _ _ _ _ _ _ _ Hl Hc Hq Hb).
        now apply update_permission_error. }
    destruct Hcol as [ev Hcol].
    destruct (round_fatal _ _ path _ _ Hcol ltac:(discriminate))
      as (r' & Hround & Hr' & Hst).
    rewrite (main_file_mode_stops _ _ _ _ _ _ _ Hfm Hbefore Hround Hr').
    now rewrite Hst.
  - intros c addr world scrapes fuel ip port n.
    apply serve_started.
  - intros w a r before d after e1 g Hl Hc Hq Hb Hfail.
    assert (Hcol : exists ev, collect w a = (e1 ++ [ev], SysExit 1)).
    { destruct Hfail as [Hnf|[e Hpe]].
      - exists not_found.
        apply (collect_fatal _ _ _ _ _ _ _ _ _ Hl Hc Hq Hb).
        now apply update_not_found.
      - exists (permission_error e).
        apply (collect_fatal _ _ _ _ _ _ _ _ _ Hl Hc Hq Hb).
        now apply update_permission_error. }
    destruct Hcol as [ev Hcol]. exists ev.
    apply (scrape_failed _ _ _ _ Hcol). discriminate.
  - vm_compute. reflexivity.
Qed.

Lemma C4_fetcher_failure_tiers_witness :
  update_ethtool_stats world_without_ethtool (args_of oneshot_cmdline)
                       "eth0" []
  = ([not_found], SysExit 1)
  /\ update_ethtool_stats world_ethtool_forbidden (args_of oneshot_cmdline)
                          "eth0" []
     = ([permission_error "[Errno 13] Permission denied"], SysExit 1)
  /\ update_ethtool_stats world_ethtool_fails (args_of oneshot_cmdline)
                          "eth0" []
     = ([nonzero_status "eth0"], Ok [])
  /\ foldM (collect_entry world_ethtool_fails (args_of oneshot_cmdline)) []
           sys_class_net_example
     = ([nonzero_status "eth0"], Ok [])
  /\ snd (main oneshot_cmdline (fun _ => world_without_ethtool) 1)
     = Terminated 1
  /\ serve listen_cmdline (fun _ => world_without_ethtool) 1 1
     = ([StartHttpServer "0.0.0.0" 9417; Sleep 3600],
        [scrape world_without_ethtool (args_of listen_cmdline)],
        StillRunning)
  /\ exists ev,
      scrape world_without_ethtool (args_of listen_cmdline)
      = ([] ++ [ev], RequestFailed).
Proof.
  destruct C4_fetcher_failure_tiers
    as (Hmissing & Hforbidden & Hsoft & Hnext & Hfatal & Hserve & Hscrape
        & _).
  split; [|split; [|split; [|split; [|split; [|split]]]]].
  - exact (Hmissing world_without_ethtool (args_of oneshot_cmdline) "eth0" []
             eq_refl).
  - exact (Hforbidden world_ethtool_forbidden (args_of oneshot_cmdline)
             "eth0" [] _ eq_refl).
  - exact (Hsoft world_ethtool_fails (args_of oneshot_cmdline) "eth0" []
             1 EmptyString eq_refl ltac:(discriminate)).
  - exact (Hnext world_ethtool_fails (args_of oneshot_cmdline) (Star Any)
             (mkDirent "eth0"
                (Some "../../devices/pci0000:00/0000:00:03.0/net/eth0"))
             [mkDirent "lo" (Some "../../devices/virtual/net/lo");
              mkDirent "bonding_masters" None]
             [] 1 EmptyString eq_refl eq_refl eq_refl ltac:(discriminate)).
  - refine (Hfatal oneshot_cmdline "/tmp/ethtool.prom"
              (fun _ => world_without_ethtool) 0%nat 0%nat (Star Any) []
              (mkDirent "eth0"
                 (Some "../../devices/pci0000:00/0000:00:03.0/net/eth0"))
              _ [] [] _ _ eq_refl eq_refl eq_refl eq_refl
              (or_introl eq_refl)).
    + repeat split; reflexivity.
    + intros j Hj. exfalso. exact (Nat.nlt_0_r j Hj).
  - refine (Hserve listen_cmdline "0.0.0.0:9417"
              (fun _ => world_without_ethtool) 1%nat 1%nat
              "0.0.0.0" "9417" 9417 _ eq_refl eq_refl eq_refl _).
    + repeat split; reflexivity.
    + split; discriminate.
  - exact (Hscrape world_without_ethtool (args_of listen_cmdline)
             (Star Any) []
             (mkDirent "eth0"
                (Some "../../devices/pci0000:00/0000:00:03.0/net/eth0"))
             [mkDirent "lo" (Some "../../devices/virtual/net/lo");
              mkDirent "bonding_masters" None]
             [] [] eq_refl eq_refl eq_refl eq_refl (or_introl eq_refl)).
Defined.

(** *** Exit statuses *)

Lemma main_parse_exit c world fuel evs n :
  _parse_args c = (evs, SysExit n) ->
  main c world fuel = (evs, Terminated n).
Proof. intros H. unfold main. now rewrite H. Qed.

Lemma collect_unreadable w a :
  listdir w = None -> collect w a = ([], Uncaught OSError).
Proof. intros H. unfold collect. now rewrite H. Qed.

(** The violation of an option group is reported by [argparse], whose
    exit status is 2, not 1. *)
Lemma C5_option_group_violation_exits_2 :
  snd (main both_destinations (fun _ => world_ethtool_fails) 1)
  = Terminated 2
  /\ snd (main both_filters (fun _ => world_ethtool_fails) 1) = Terminated 2
  /\ snd (main both_destinations (fun _ => world_ethtool_fails) 1)
     <> Terminated 1.
Proof. repeat split. discriminate. Qed.

(** C5, as the script behaves.  The violation of an option group (both
    destinations, or both filters) ends the process with status 2, the
    status of [argparse]; [--oneshot], or an interval other than 0,
    without a text file ends it with status 1 before any collection; in
    file mode a collection that cannot read the device listing, or that
    finds the binary missing or not executable, ends it with status 1. *)
Theorem C5_exit_statuses :
  (forall c world fuel,
      is_some (c_textfile_name c) && is_some (c_listen c) = true
      \/ is_some (c_whitelist_regex c) && is_some (c_blacklist_regex c) = true ->
      main c world fuel = ([ParserError], Terminated 2))
  /\ (forall c world fuel,
      argparse c = ([], Ok tt) ->
      truthy_opt (c_textfile_name c) = false ->
      (c_oneshot c = true ->
       main c world fuel = (oneshot_error, Terminated 1))
      /\ (c_oneshot c = false -> truthy_int (c_interval c) = true ->
          main c world fuel = (interval_error, Terminated 1)))
  /\ (forall c path world k fuel evs r,
      file_mode c path ->
      (forall j, (j < k)%nat ->
                 completes (round (world j) (args_of c) path)) ->
      collect (world k) (args_of c) = (evs, r) ->
      (forall g, r <> Ok g) ->
      snd (main c world (k + S fuel)) = Terminated 1)
  /\ (forall w a, listdir w = None -> collect w a = ([], Uncaught OSError))
  /\ (forall w a r before d after e1 g,
      listdir w = Some (before ++ d :: after) ->
      re_compile (interface_regex a) = Some r ->
      qualifies r d = true ->
      foldM (collect_entry w a) [] before = (e1, Ok g) ->
      ethtool w (d_name d) = FileNotFound
      \/ (exists e, ethtool w (d_name d) = PermissionDenied e) ->
      exists ev, collect w a = (e1 ++ [ev], SysExit 1)).
Proof.
  split; [|split; [|split; [|split]]].
  - intros c world fuel Hv. apply main_parse_exit.
    unfold _parse_args, argparse.
    destruct (is_some (c_textfile_name c) && is_some (c_listen c));
      [reflexivity|].
    destruct Hv as [Hv|Hv]; [discriminate|]. now rewrite Hv.
  - intros c world fuel Hap Htf. split.
    + intros Ho. apply main_parse_exit. unfold _parse_args.
      rewrite Hap, bind_pure, Ho, Htf. reflexivity.
    + intros Ho Hi. apply main_parse_exit. unfold _parse_args.
      rewrite Hap, bind_pure, Ho, Hi, Htf. reflexivity.
  - intros c path world k fuel evs r Hfm Hbefore Hcol Hr.
    destruct (round_fatal _ _ path _ _ Hcol Hr) as (r' & Hround & Hr' & Hst).
    rewrite (main_file_mode_stops _ _ _ _ _ _ _ Hfm Hbefore Hround Hr').
    rewrite Hst. destruct r as [g|n|e]; [now destruct (Hr g)| |reflexivity].
    now rewrite (collect_exit_status _ _ _ _ Hcol).
  - exact collect_unreadable.
  - intros w a r before d after e1 g Hl Hc Hq Hb [Hnf|[e Hpe]].
    + exists not_found.
      apply (collect_fatal _ _ _ _ _ _ _ _ _ Hl Hc Hq Hb).
      now apply update_not_found.
    + exists (permission_error e).
      apply (collect_fatal _ _ _ _ _ _ _ _ _ Hl Hc Hq Hb).
      now apply update_permission_error.
Qed.

Lemma C5_exit_statuses_witness :
  main both_destinations (fun _ => world_ethtool_fails) 1
  = ([ParserError], Terminated 2)
  /\ main oneshot_with_listen (fun _ => world_ethtool_fails) 1
     = (oneshot_error, Terminated 1)
  /\ snd (main oneshot_cmdline (fun _ => world_unreadable) 1) = Terminated 1
  /\ collect world_unreadable (args_of oneshot_cmdline)
     = ([], Uncaught OSError)
  /\ exists ev,
      collect world_ethtool_forbidden (args_of oneshot_cmdline)
      = ([] ++ [ev], SysExit 1).
Proof.
  destruct C5_exit_statuses as (Hgroup & Hmode & Hfatal & Hroot & Hbinary).
  split; [|split; [|split; [|split]]].
  - exact (Hgroup both_destinations (fun _ => world_ethtool_fails) 1%nat
             (or_introl eq_refl)).
  - exact (proj1 (Hmode oneshot_with_listen (fun _ => world_ethtool_fails)
                    1%nat eq_refl eq_refl) eq_refl).
  - refine (Hfatal oneshot_cmdline "/tmp/ethtool.prom"
              (fun _ => world_unreadable) 0%nat 0%nat []
              (Uncaught OSError) _ _ eq_refl _).
    + repeat split; reflexivity.
    + intros j Hj. exfalso. exact (Nat.nlt_0_r j Hj).
    + intros g. discriminate.
  - exact (Hroot world_unreadable (args_of oneshot_cmdline) eq_refl).
  - exact (Hbinary world_ethtool_forbidden (args_of oneshot_cmdline)
             (Star Any) []
             (mkDirent "eth0"
                (Some "../../devices/pci0000:00/0000:00:03.0/net/eth0"))
             [mkDirent "lo" (Some "../../devices/virtual/net/lo");
              mkDirent "bonding_masters" None]
             [] [] eq_refl eq_refl eq_refl eq_refl
             (or_intror (ex_intro _ "[Errno 13] Permission denied" eq_refl))).
Defined.

(** C6.  An interval given with [--listen] is refused, before any
    collection, when it is not 0, and without [--interval] the interval
    of file mode is 5; but [--interval 0 --listen 0.0.0.0:9417] is
    accepted: the test is on the truth value of the interval, the
    process starts serving, and the interval is set to 5. *)
Theorem C6_interval_zero_with_listen_accepted :
  _parse_args listen_interval_zero = ([], Ok (args_of listen_interval_zero))
  /\ interval (args_of listen_interval_zero) = 5
  /\ (forall world fuel,
      main listen_interval_zero world fuel
      = (StartHttpServer "0.0.0.0" 9417 :: serve_loop fuel, StillRunning))
  /\ (forall c world fuel n,
      argparse c = ([], Ok tt) ->
      truthy_opt (c_textfile_name c) = false -> c_oneshot c = false ->
      c_interval c = Some n -> n <> 0 ->
      main c world fuel = (interval_error, Terminated 1))
  /\ (forall c path,
      file_mode c path -> c_interval c = None ->
      exists a, _parse_args c = ([], Ok a) /\ interval a = 5).
Proof.
  split; [reflexivity|]. split; [reflexivity|]. split; [reflexivity|].
  split.
  - intros c world fuel n Hap Htf Ho Hi Hn. apply main_parse_exit.
    unfold _parse_args. rewrite Hap, bind_pure, Ho, Hi, Htf.
    cbn [truthy_int]. apply Z.eqb_neq in Hn. now rewrite Hn.
  - intros c path Hfm Hi. exists (args_of c). split.
    + exact (parse_args_file_mode c path Hfm).
    + unfold args_of. cbn [interval]. now rewrite Hi.
Qed.

Lemma C6_interval_zero_with_listen_accepted_witness :
  main (mkCmdline None (Some "0.0.0.0:9417") (Some 30) None false None None)
       (fun _ => world_ethtool_fails) 1
  = (interval_error, Terminated 1)
  /\ exists a, _parse_args oneshot_cmdline = ([], Ok a) /\ interval a = 5.
Proof.
  destruct C6_interval_zero_with_listen_accepted as (_ & _ & _ & Hrej & Hdef).
  split.
  - exact (Hrej (mkCmdline None (Some "0.0.0.0:9417") (Some 30) None false
                   None None)
             (fun _ => world_ethtool_fails) 1%nat 30 eq_refl eq_refl eq_refl
             eq_refl ltac:(discriminate)).
  - refine (Hdef oneshot_cmdline "/tmp/ethtool.prom" _ eq_refl).
    repeat split; reflexivity.
Defined.




(** ** Further properties of the script *)

(** *** Configuration *)

Lemma argparse_result c :
  argparse c = ([], Ok tt)
  \/ argparse c = ([ParserError], SysExit 2).
Proof.
  unfold argparse.
  destruct (is_some (c_textfile_name c) && is_some (c_listen c));
    [now right|].
  destruct (is_some (c_whitelist_regex c) && is_some (c_blacklist_regex c));
    [now right|].
  destruct (negb (is_some (c_textfile_name c))
            && negb (is_some (c_listen c))); [now right|now left].
Qed.

Lemma argparse_passes c :
  argparse c = ([], Ok tt) ->
  is_some (c_textfile_name c) = negb (is_some (c_listen c))
  /\ is_some (c_whitelist_regex c) && is_some (c_blacklist_regex c) = false.
Proof.
  unfold argparse.
  destruct (is_some (c_textfile_name c)), (is_some (c_listen c));
    cbn [andb negb]; try discriminate;
    destruct (is_some (c_whitelist_regex c)
              && is_some (c_blacklist_regex c)); try discriminate;
    now split.
Qed.

Lemma parse_args_Ok_inv c evs a :
  _parse_args c = (evs, Ok a) ->
  evs = [] /\ a = args_of c /\ argparse c = ([], Ok tt)
  /\ c_oneshot c && negb (truthy_opt (c_textfile_name c)) = false
  /\ truthy_int (c_interval c) && negb (truthy_opt (c_textfile_name c))
     = false.
Proof.
  unfold _parse_args.
  destruct (argparse_result c) as [-> | ->]; [|discriminate].
  rewrite bind_pure.
  destruct (c_oneshot c && negb (truthy_opt (c_textfile_name c)));
    [discriminate|].
  destruct (truthy_int (c_interval c)
            && negb (truthy_opt (c_textfile_name c))); [discriminate|].
  intros [= <- <-]. now repeat split.
Qed.

(** X1. A configuration that [_parse_args] accepts is accepted silently
    and satisfies: exactly one destination is given, at most one filter
    is given, the interval is never 0, [--oneshot] comes with a
    non-empty text file, and an interval that counts comes with a
    non-empty text file and is kept as given. *)
Theorem parse_args_accepted_configuration c evs a :
  _parse_args c = (evs, Ok a) ->
  evs = [] /\ a = args_of c
  /\ is_some (textfile_name a) = negb (is_some (listen a))
  /\ is_some (whitelist_regex a) && is_some (blacklist_regex a) = false
  /\ interval a <> 0
  /\ (oneshot a = true -> truthy_opt (textfile_name a) = true)
  /\ (truthy_int (c_interval c) = true ->
      truthy_opt (textfile_name a) = true
      /\ c_interval c = Some (interval a)).
Proof.
  intros (-> & -> & Hap & Ho & Hi)%parse_args_Ok_inv.
  destruct (argparse_passes _ Hap) as [Hdest Hfilt].
  split; [reflexivity|]. split; [reflexivity|].
  unfold args_of; cbn [textfile_name listen whitelist_regex blacklist_regex
                       interval oneshot].
  split; [exact Hdest|]. split; [exact Hfilt|].
  split; [|split].
  - destruct (c_interval c) as [n|]; cbn [truthy_int from_option id];
      [|discriminate].
    destruct (Z.eqb_spec n 0) as [->|Hn]; cbn [negb]; [discriminate|exact Hn].
  - intros Hone. rewrite Hone in Ho. cbn [andb] in Ho.
    now apply negb_false_iff in Ho.
  - intros Hiv. rewrite Hiv in Hi |- *. cbn [andb] in Hi.
    apply negb_false_iff in Hi. split; [exact Hi|].
    destruct (c_interval c) as [n|]; [reflexivity|discriminate].
Qed.

Lemma parse_args_accepted_configuration_witness :
  interval (args_of oneshot_cmdline) <> 0
  /\ truthy_opt (textfile_name (args_of oneshot_cmdline)) = true.
Proof.
  destruct (parse_args_accepted_configuration oneshot_cmdline []
              (args_of oneshot_cmdline) eq_refl)
    as (_ & _ & _ & _ & Hi & Ho & _).
  split; [exact Hi|exact (Ho eq_refl)].
Defined.

(** X2. A destination given as the empty string, without [--oneshot]
    and without an interval that counts, passes every check; the
    [__main__] block then enters neither branch and the process ends
    with status 0 having served and written nothing. *)
Theorem empty_destination_does_nothing c world fuel :
  argparse c = ([], Ok tt) ->
  truthy_opt (c_textfile_name c) = false ->
  truthy_opt (c_listen c) = false ->
  c_oneshot c = false ->
  truthy_int (c_interval c) = false ->
  main c world fuel = ([], Terminated 0).
Proof.
  intros Hap Htf Hli Ho Hi. unfold main, _parse_args.
  rewrite Hap, bind_pure, Ho, Hi. cbn [andb]. unfold ret.
  cbn [args_of listen textfile_name]. now rewrite Hli, Htf.
Qed.

Lemma empty_destination_does_nothing_witness :
  main (mkCmdline (Some EmptyString) None None None false None None)
       (fun _ => world_example) 3
  = ([], Terminated 0).
Proof.
  exact (empty_destination_does_nothing
           (mkCmdline (Some EmptyString) None None None false None None)
           (fun _ => world_example) 3%nat
           eq_refl eq_refl eq_refl eq_refl eq_refl).
Defined.

(** *** The file-mode loop *)









(** *** Serve mode *)



(** *** One mode for the life of the process *)

Lemma serve_loop_sleeps fuel e : In e (serve_loop fuel) -> e = Sleep 3600.
Proof.
  induction fuel as [|f IH]; cbn [serve_loop In]; [intros []|].
  intros [<-|H]; [reflexivity|now apply IH].
Qed.

Lemma file_loop_events world a path : forall fuel tick,
  Forall (file_event path) (fst (file_loop world a path tick fuel)).
Proof.
  assert (Hlogs : forall w, Forall (file_event path) (fst (collect w a))).
  { intros w. eapply List.Forall_impl; [|apply collect_only_logs].
    intros [] H; cbn in *; tauto. }
  induction fuel as [|f IH]; intros tick; [constructor|].
  cbn [file_loop]. rewrite round_of_collect.
  specialize (Hlogs (world tick)).
  destruct (collect (world tick) a) as [evs [g|n|e]]; cbn [fst] in *;
    try assumption.
  assert (Hw : Forall (file_event path) (evs ++ [WriteTextfile path g])).
  { apply Forall_app_2; [assumption|]. now repeat constructor. }
  destruct (oneshot a); [assumption|].
  destruct (sleep_error (interval a)); [assumption|].
  specialize (IH (S tick)).
  destruct (file_loop world a path (S tick) f) as [evs' r]. cbn [fst] in *.
  apply Forall_app_2; [|assumption].
  apply Forall_app_2; [assumption|]. now repeat constructor.
Qed.

(** X6. The mode of publication is fixed by the command line: a run that
    starts the HTTP server never writes a text file and never terminates
    by itself; a run that writes a text file writes only to the
    non-empty path given with [--textfile-name] and never starts the
    server. *)
Theorem publication_mode_is_fixed c world fuel :
  (Exists is_server_start (fst (main c world fuel)) ->
   Forall (fun e => ~ is_write e) (fst (main c world fuel))
   /\ snd (main c world fuel) = StillRunning)
  /\ (forall path g,
      In (WriteTextfile path g) (fst (main c world fuel)) ->
      c_textfile_name c = Some path /\ truthy path = true
      /\ Forall (fun e => ~ is_server_start e) (fst (main c world fuel))).
Proof.
  assert (Hshape :
    Forall (fun e => ~ is_server_start e /\ ~ is_write e)
           (fst (main c world fuel))
    \/ (Forall (fun e => ~ is_write e) (fst (main c world fuel))
        /\ snd (main c world fuel) = StillRunning)
    \/ (exists path, c_textfile_name c = Some path /\ truthy path = true
        /\ Forall (file_event path) (fst (main c world fuel)))).
  { unfold main. destruct (_parse_args c) as [evs [a|n|e]] eqn:Hp.
    - apply parse_args_Ok_inv in Hp as (-> & -> & _).
      cbn [args_of listen textfile_name].
      destruct (truthy_opt (c_listen c)).
      + destruct (split ":" (default "" (c_listen c))) as [|ip [|port [|x l]]];
          try (left; constructor).
        destruct (py_int port) as [n|]; [|left; constructor].
        destruct (port_in_range n); [|left; constructor].
        right; left. cbn [fst snd app]. split; [|reflexivity].
        constructor; [intros []|]. apply List.Forall_forall.
        intros e He. apply serve_loop_sleeps in He as ->. intros [].
      + destruct (c_textfile_name c) as [path|] eqn:Ht;
          cbn [truthy_opt from_option id]; [|left; constructor].
        destruct (truthy path) eqn:Hpath; [|left; constructor].
        right; right. exists path. split; [reflexivity|].
        split; [assumption|].
        pose proof (file_loop_events world (args_of c) path fuel 0%nat) as H.
        now destruct (file_loop world (args_of c) path 0 fuel).
    - left. cbn [fst]. unfold _parse_args in Hp.
      destruct (argparse_result c) as [Ha|Ha]; rewrite Ha in Hp.
      + rewrite bind_pure in Hp.
        destruct (c_oneshot c && negb (truthy_opt (c_textfile_name c)));
          [injection Hp as <- _; repeat constructor; intros []|].
        destruct (truthy_int (c_interval c)
                  && negb (truthy_opt (c_textfile_name c)));
          [injection Hp as <- _; repeat constructor; intros []|discriminate].
      + injection Hp as <- _. repeat constructor; intros [].
    - exfalso. unfold _parse_args in Hp.
      destruct (argparse_result c) as [Ha|Ha]; rewrite Ha in Hp;
        [|discriminate].
      rewrite bind_pure in Hp.
      destruct (c_oneshot c && negb (truthy_opt (c_textfile_name c)));
        [discriminate|].
      destruct (truthy_int (c_interval c)
                && negb (truthy_opt (c_textfile_name c))); discriminate. }
  split.
  - intros Hex. apply List.Exists_exists in Hex as (e & He & Hs).
    destruct Hshape as [Hn|[Hserve|(path & _ & _ & Hf)]].
    + rewrite List.Forall_forall in Hn. now destruct (Hn _ He).
    + exact Hserve.
    + rewrite List.Forall_forall in Hf. specialize (Hf _ He).
      now destruct e.
  - intros path g Hin.
    destruct Hshape as [Hn|[[Hserve _]|(p & Ht & Hp & Hf)]].
    + rewrite List.Forall_forall in Hn. destruct (Hn _ Hin) as [_ Hw].
      now destruct Hw.
    + rewrite List.Forall_forall in Hserve. now destruct (Hserve _ Hin).
    + pose proof Hf as Hf'. rewrite List.Forall_forall in Hf'.
      pose proof (Hf' _ Hin) as E. cbn [file_event] in E. subst p.
      split; [assumption|]. split; [assumption|].
      eapply List.Forall_impl; [|exact Hf]. intros [] H Hs; cbn in *; tauto.
Qed.

Lemma publication_mode_is_fixed_witness :
  (c_textfile_name oneshot_cmdline = Some "/tmp/ethtool.prom"
   /\ truthy "/tmp/ethtool.prom" = true
   /\ Forall (fun e => ~ is_server_start e)
             (fst (main oneshot_cmdline (fun _ => world_example) 1)))
  /\ (Forall (fun e => ~ is_write e)
             (fst (main (mkCmdline None (Some "0.0.0.0:9417") None None
                                   false None None)
                        (fun _ => world_example) 2))
      /\ snd (main (mkCmdline None (Some "0.0.0.0:9417") None None
                              false None None)
                   (fun _ => world_example) 2)
         = StillRunning).
Proof.
  split.
  - refine (proj2 (publication_mode_is_fixed oneshot_cmdline
                     (fun _ => world_example) 1%nat)
              "/tmp/ethtool.prom"
              [("eth0", "rx_packets", float_of_Z 100);
               ("eth0", "rx_errors", float_of_Z 0)] _).
    right. left. reflexivity.
  - refine (proj1 (publication_mode_is_fixed
                     (mkCmdline None (Some "0.0.0.0:9417") None None
                                false None None)
                     (fun _ => world_example) 2%nat) _).
    apply List.Exists_cons_hd. exact I.
Defined.

(** *** The enumerator and the collection *)

Lemma find_entry_result a acc d :
  (exists b, physical a d = ([], Ok b)
             /\ find_entry a acc d
                = ([], Ok (if b then acc ++ [d_name d] else acc)))
  \/ (physical a d = ([], Uncaught ReError)
      /\ find_entry a acc d = ([], Uncaught ReError)).
Proof.
  unfold find_entry.
  destruct (physical_result a d) as [[b Hb]|Hr]; [left|right].
  - exists b. split; [assumption|]. rewrite Hb, bind_pure. now destruct b.
  - split; [assumption|]. now rewrite Hr.
Qed.

Lemma find_collect_fusion w a : forall entries acc e names,
  foldM (find_entry a) acc entries = (e, Ok names) ->
  e = []
  /\ exists rest,
      names = acc ++ rest
      /\ forall g,
          foldM (collect_entry w a) g entries
          = foldM (fun g iface => update_ethtool_stats w a iface g) g rest.
Proof.
  induction entries as [|d entries IH]; intros acc e names.
  - intros [= <- <-]. split; [reflexivity|]. exists [].
    now rewrite app_nil_r.
  - rewrite foldM_cons.
    destruct (find_entry_result a acc d) as [(b & Hp & ->)|[_ ->]];
      [|discriminate].
    rewrite bind_pure. intros H.
    destruct (IH _ _ _ H) as (-> & rest & -> & Hfold).
    split; [reflexivity|]. destruct b.
    + exists (d_name d :: rest). rewrite <- app_assoc.
      split; [reflexivity|]. intros g. rewrite !foldM_cons.
      unfold collect_entry at 1. rewrite Hp, bind_pure.
      apply bind_ext. exact Hfold.
    + exists rest. split; [reflexivity|]. intros g. rewrite foldM_cons.
      unfold collect_entry at 1. rewrite Hp, bind_pure. unfold ret.
      rewrite bind_pure. apply Hfold.
Qed.

Lemma physical_true_compiles a d :
  physical a d = ([], Ok true) ->
  exists r, re_compile (interface_regex a) = Some r.
Proof.
  unfold physical, py_re_match. destruct (d_link d) as [t|]; [|discriminate].
  destruct (negb (contains "virtual" t)); [|discriminate].
  destruct (re_compile (interface_regex a)) as [r|]; [eauto|discriminate].
Qed.

Lemma find_raise_fusion w a : forall entries acc e x,
  foldM (find_entry a) acc entries = (e, Uncaught x) ->
  forall g, foldM (collect_entry w a) g entries = ([], Uncaught x).
Proof.
  induction entries as [|d entries IH]; intros acc e x; [discriminate|].
  rewrite foldM_cons.
  destruct (find_entry_result a acc d) as [(b & Hp & ->)|[Hp ->]].
  - rewrite bind_pure. intros H g. rewrite foldM_cons.
    unfold collect_entry at 1. rewrite Hp, bind_pure. destruct b.
    + exfalso. destruct (physical_true_compiles _ _ Hp) as [r Hr].
      rewrite (find_compiled _ _ Hr) in H. discriminate.
    + unfold ret. rewrite bind_pure. exact (IH _ _ _ H g).
  - intros [= <- <-] g. rewrite foldM_cons. unfold collect_entry at 1.
    now rewrite Hp.
Qed.

Lemma find_no_exit a : forall entries acc e n,
  foldM (find_entry a) acc entries <> (e, SysExit n).
Proof.
  induction entries as [|d entries IH]; intros acc e n; [discriminate|].
  rewrite foldM_cons.
  destruct (find_entry_result a acc d) as [(b & _ & ->)|[_ ->]];
    [|discriminate].
  rewrite bind_pure. apply IH.
Qed.

(** X7. [collect] and the generator agree: when
    [find_physical_interfaces] yields a list of names, silently,
    [collect] is [update_ethtool_stats] run over exactly these names in
    that order, starting from an empty gauge; when the generator raises,
    [collect] raises the same exception before any interface has been
    processed; and the generator never exits the process. *)
Theorem collect_follows_enumerator w a :
  (forall e names,
      find_physical_interfaces w a = (e, Ok names) ->
      e = []
      /\ collect w a
         = foldM (fun g iface => update_ethtool_stats w a iface g) [] names)
  /\ (forall e x,
      find_physical_interfaces w a = (e, Uncaught x) ->
      collect w a = ([], Uncaught x))
  /\ (forall e n, find_physical_interfaces w a <> (e, SysExit n)).
Proof.
  unfold find_physical_interfaces, collect.
  destruct (listdir w) as [entries|].
  - split; [|split].
    + intros e names H.
      destruct (find_collect_fusion w a _ _ _ _ H) as (-> & rest & -> & Hf).
      split; [reflexivity|]. apply Hf.
    + intros e x H. exact (find_raise_fusion w a _ _ _ _ H []).
    + intros e n. apply find_no_exit.
  - split; [|split]; try discriminate. now intros e x [= <- <-].
Qed.

Lemma collect_follows_enumerator_witness :
  collect world_example (args_of oneshot_cmdline)
  = foldM (fun g iface =>
             update_ethtool_stats world_example (args_of oneshot_cmdline)
                                  iface g)
          [] ["eth0"]
  /\ collect world_unreadable (args_of oneshot_cmdline)
     = ([], Uncaught OSError).
Proof.
  destruct (collect_follows_enumerator world_example
              (args_of oneshot_cmdline)) as (Hok & _ & _).
  destruct (collect_follows_enumerator world_unreadable
              (args_of oneshot_cmdline)) as (_ & Hraise & _).
  split.
  - exact (proj2 (Hok [] ["eth0"] eq_refl)).
  - exact (Hraise [] OSError eq_refl).
Defined.

(** *** One interface at a time *)

Lemma loop_shift a iface : forall lines ks g,
  foldM (process_line a iface) (ks, g) lines
  = (fst (foldM (process_line a iface) (ks, []) lines),
     res_map (fun st => (fst st, g ++ snd st))
             (snd (foldM (process_line a iface) (ks, []) lines))).
Proof.
  induction lines as [|line rest IH]; intros ks g.
  - cbn [foldM ret fst snd res_map]. now rewrite app_nil_r.
  - rewrite !foldM_cons, !process_line_cases.
    assert (Hsame : forall e,
      bind (e, Ok (ks, g))
           (fun a' => foldM (process_line a iface) a' rest)
      = (fst (bind (e, Ok (ks, []))
                   (fun a' => foldM (process_line a iface) a' rest)),
         res_map (fun st => (fst st, g ++ snd st))
                 (snd (bind (e, Ok (ks, []))
                         (fun a' => foldM (process_line a iface) a' rest))))).
    { intros e. cbn [bind]. rewrite (IH ks g).
      now destruct (foldM (process_line a iface) (ks, []) rest). }
    destruct (parse_line line) as [|l|key value]; try apply Hsame.
    destruct (includes a key) as [[|]|]; try apply Hsame; [|reflexivity].
    destruct (bool_decide (key ∈ ks)); [apply Hsame|].
    cbn [bind]. unfold add_metric.
    rewrite (IH _ (g ++ [(iface, key, value)])).
    rewrite (IH _ ([] ++ [(iface, key, value)])).
    destruct (foldM (process_line a iface) ({[key]} ∪ ks, []) rest)
      as [e2 [[ks' added]|n|x]]; cbn [fst snd res_map app]; try reflexivity.
    now rewrite <- app_assoc.
Qed.

(** X8. What [update_ethtool_stats] adds for an interface does not
    depend on the gauge it is given: the call appends to the gauge what
    it would put into an empty one, with the same log records and the
    same outcome, because [key_set] starts empty at every call.  A name
    already present in the gauge for another interface is therefore
    never taken for a duplicate. *)
Theorem update_contribution_independent w a iface g :
  update_ethtool_stats w a iface g
  = (fst (update_ethtool_stats w a iface []),
     res_map (fun added => g ++ added)
             (snd (update_ethtool_stats w a iface []))).
Proof.
  unfold update_ethtool_stats.
  destruct (ethtool w iface) as [|e| |rc data]; try reflexivity.
  destruct (negb (rc =? 0)).
  - cbn [emit bind ret fst snd res_map app]. now rewrite app_nil_r.
  - rewrite (loop_shift a iface (split NL data) ∅ g).
    unfold gauge, loop_state, sample in *.
    match goal with
    | |- context [@foldM ?A ?B ?f ?s ?l] =>
        destruct (@foldM A B f s l) as [e1 [[ks added]|n|x]]
    end; reflexivity.
Qed.

(** Two interfaces that report the same counter both get their sample. *)
Example same_name_on_two_interfaces :
  collect (mkEnv (Some sys_class_net_prefix)
                 (fun _ => Ran 0 "rx_packets: 7"))
          (mkArgs None None 5 "eth0" false None None)
  = ([], Ok [("eth0", "rx_packets", float_of_Z 7);
             ("eth01", "rx_packets", float_of_Z 7)]).
Proof. vm_compute. reflexivity. Qed.

(** *** Where a sample comes from *)

Lemma update_sample_origin w a iface g0 evs g s :
  update_ethtool_stats w a iface g0 = (evs, Ok g) -> In s g ->
  In s g0
  \/ exists k v data,
      s = (iface, k, v) /\ ethtool w iface = Ran 0 data
      /\ first_value k (pairs_of (split NL data)) = Some v
      /\ includes a k = Some true.
Proof.
  unfold update_ethtool_stats.
  destruct (ethtool w iface) as [|e| |rc data] eqn:Hrun; try discriminate.
  destruct (Z.eqb_spec rc 0) as [->|Hrc]; cbn [negb].
  - intros (e1 & [ks1 g1] & e2 & H & Hk & _)%bind_Ok_inv.
    cbn [snd] in Hk. injection Hk as _ <-.
    destruct (loop_invariant _ _ _ _ _ _ _ _ H)
      as (added & -> & Hi & _ & _ & _ & Hv).
    intros [Hin|Hin]%in_app_or; [now left|right].
    rewrite List.Forall_forall in Hi. pose proof (Hi _ Hin) as Ei.
    destruct s as [[i k] v]. unfold s_iface in Ei. cbn [fst] in Ei. subst i.
    apply Hv in Hin as (_ & Hf & Hc). now exists k, v, data.
  - rewrite bind_emit. intros [= <- <-]. now left.
Qed.

Lemma fold_sample_origin w a : forall names g0 evs g s,
  foldM (fun g iface => update_ethtool_stats w a iface g) g0 names
  = (evs, Ok g) ->
  In s g ->
  In s g0
  \/ exists iface k v data,
      In iface names /\ s = (iface, k, v)
      /\ ethtool w iface = Ran 0 data
      /\ first_value k (pairs_of (split NL data)) = Some v
      /\ includes a k = Some true.
Proof.
  induction names as [|n names IH]; intros g0 evs g s.
  - intros [= <- <-]. now left.
  - rewrite foldM_cons. intros (e1 & g1 & e2 & H1 & H2 & _)%bind_Ok_inv Hin.
    destruct (IH _ _ _ _ H2 Hin)
      as [Hin1|(iface & k & v & data & Hn & Hrest)].
    + destruct (update_sample_origin _ _ _ _ _ _ _ H1 Hin1)
        as [H0|(k & v & data & Hrest)]; [now left|right].
      exists n, k, v, data. split; [now left|exact Hrest].
    + right. exists iface, k, v, data. split; [now right|exact Hrest].
Qed.

Lemma collect_sample_origin w a evs g i k v :
  collect w a = (evs, Ok g) -> In (i, k, v) g ->
  exists names data,
    find_physical_interfaces w a = ([], Ok names) /\ In i names
    /\ ethtool w i = Ran 0 data
    /\ first_value k (pairs_of (split NL data)) = Some v
    /\ includes a k = Some true.
Proof.
  intros Hc Hin.
  assert (Hfind : exists names,
             find_physical_interfaces w a = ([], Ok names)
             /\ collect w a
                = foldM (fun g iface => update_ethtool_stats w a iface g)
                        [] names).
  { unfold find_physical_interfaces, collect in *.
    destruct (listdir w) as [entries|]; [|discriminate].
    destruct (foldM (find_entry a) [] entries) as [e [names|n|x]] eqn:Hf.
    - destruct (find_collect_fusion w a _ _ _ _ Hf)
        as (-> & rest & -> & Hfold).
      exists rest. split; [reflexivity|apply Hfold].
    - now destruct (find_no_exit a _ _ _ _ Hf).
    - rewrite (find_raise_fusion w a _ _ _ _ Hf []) in Hc. discriminate. }
  destruct Hfind as (names & Hfind & Hfold). rewrite Hfold in Hc.
  destruct (fold_sample_origin _ _ _ _ _ _ _ Hc Hin)
    as [[]|(iface & k' & v' & data & Hn & [= -> -> ->] & Hrest)].
  now exists names, data.
Qed.

(** X9. Every sample of a snapshot has an origin: its interface was
    yielded by the enumerator, [ethtool] ended with status 0 for that
    interface, its value is the value of the first line of that output
    that reads as a counter of that name, and the name passes the
    filter. *)
Theorem snapshot_provenance w a evs g i k v :
  collect w a = (evs, Ok g) -> In (i, k, v) g ->
  exists names data,
    find_physical_interfaces w a = ([], Ok names) /\ In i names
    /\ ethtool w i = Ran 0 data
    /\ first_value k (pairs_of (split NL data)) = Some v
    /\ includes a k = Some true.
Proof. exact (collect_sample_origin w a evs g i k v). Qed.

Lemma snapshot_provenance_witness :
  exists names data,
    find_physical_interfaces world_example (args_of oneshot_cmdline)
    = ([], Ok names)
    /\ In "eth0" names
    /\ ethtool world_example "eth0" = Ran 0 data
    /\ first_value "rx_packets" (pairs_of (split NL data))
       = Some (float_of_Z 100)
    /\ includes (args_of oneshot_cmdline) "rx_packets" = Some true.
Proof.
  exact (snapshot_provenance world_example (args_of oneshot_cmdline)
           [already_seen "rx_packets" "eth0"]
           [("eth0", "rx_packets", float_of_Z 100);
            ("eth0", "rx_errors", float_of_Z 0)]
           "eth0" "rx_packets" (float_of_Z 100) eq_refl (or_introl eq_refl)).
Defined.

(** *** Trimming *)

Lemma rstrip_by_idempotent p s :
  rstrip_by p (rstrip_by p s) = rstrip_by p s.
Proof.
  induction s as [|c s IH]; [reflexivity|]. cbn [rstrip_by].
  destruct (rstrip_by p s) as [|d r] eqn:Hr.
  - destruct (p c) eqn:Hc; [reflexivity|]. cbn [rstrip_by]. now rewrite Hc.
  - change (rstrip_by p (String c (String d r)))
      with (match rstrip_by p (String d r) with
            | EmptyString => if p c then EmptyString else String c EmptyString
            | r0 => String c r0
            end).
    now rewrite IH.
Qed.

Lemma lstrip_by_head p s : head_kept p (lstrip_by p s).
Proof.
  induction s as [|c s IH]; [exact I|]. cbn [lstrip_by].
  destruct (p c) eqn:Hc; [exact IH|exact Hc].
Qed.

Lemma rstrip_by_head p s : head_kept p s -> head_kept p (rstrip_by p s).
Proof.
  destruct s as [|c s]; [intros _; exact I|]. cbn [head_kept rstrip_by].
  intros Hc. destruct (rstrip_by p s); [now rewrite Hc|exact Hc].
Qed.

Lemma lstrip_by_of_head p s : head_kept p s -> lstrip_by p s = s.
Proof.
  destruct s as [|c s]; [reflexivity|]. cbn [head_kept lstrip_by].
  now intros ->.
Qed.

Lemma strip_idempotent s : strip (strip s) = strip s.
Proof.
  unfold strip, strip_by.
  rewrite (lstrip_by_of_head isspace (rstrip_by isspace (lstrip_by isspace s)))
    by apply rstrip_by_head, lstrip_by_head.
  apply rstrip_by_idempotent.
Qed.

Lemma parse_line_key_trimmed line k v :
  parse_line line = Pair k v -> strip k = k.
Proof.
  rewrite parse_line_refines. unfold spec_parse_line.
  destruct (negb (truthy line) || (line =? "NIC statistics:")%string);
    [discriminate|]. cbv zeta.
  destruct (partition ": " (strip line)) as [[name value]|]; [|discriminate].
  destruct (py_float (strip value)); [|discriminate].
  intros [= <- _]. apply strip_idempotent.
Qed.

Lemma first_value_In k v l : first_value k l = Some v -> In (k, v) l.
Proof.
  unfold first_value.
  destruct (List.find (fun p => (fst p =? k)%string) l) as [[k' v']|] eqn:Hf;
    [|discriminate].
  intros [= <-]. apply List.find_some in Hf as [Hin Hk].
  cbn [fst] in Hk. apply String.eqb_eq in Hk. now subst k'.
Qed.

Lemma pairs_of_In k v lines :
  In (k, v) (pairs_of lines) ->
  exists line, In line lines /\ parse_line line = Pair k v.
Proof.
  unfold pairs_of. intros (line & Hl & Hin)%in_flat_map. exists line.
  split; [assumption|].
  destruct (parse_line line) as [|l|k' v']; try now destruct Hin.
  destruct Hin as [[= -> ->]|[]]. reflexivity.
Qed.

(** X10. The counter names of a snapshot are trimmed: no sample carries
    a name with white space at either end, however the line was
    indented or padded in the output of [ethtool]; and each name was
    read from a line of that output. *)
Theorem sample_names_are_trimmed w a evs g i k v :
  collect w a = (evs, Ok g) -> In (i, k, v) g ->
  strip k = k
  /\ exists data line,
      ethtool w i = Ran 0 data /\ In line (split NL data)
      /\ parse_line line = Pair k v.
Proof.
  intros Hc Hin.
  destruct (collect_sample_origin _ _ _ _ _ _ _ Hc Hin)
    as (names & data & _ & _ & Hrun & Hf & _).
  apply first_value_In, pairs_of_In in Hf as (line & Hl & Hp).
  split; [exact (parse_line_key_trimmed _ _ _ Hp)|].
  now exists data, line.
Qed.

Lemma sample_names_are_trimmed_witness :
  strip "rx_bytes" = "rx_bytes"
  /\ exists data line,
      Ran 0 "     rx_bytes: 12" = Ran 0 data /\ In line (split NL data)
      /\ parse_line line = Pair "rx_bytes" (float_of_Z 12).
Proof.
  exact (sample_names_are_trimmed
           (mkEnv (Some sys_class_net_example)
                  (fun _ => Ran 0 "     rx_bytes: 12"))
           (args_of oneshot_cmdline) []
           [("eth0", "rx_bytes", float_of_Z 12)]
           "eth0" "rx_bytes" (float_of_Z 12) eq_refl (or_introl eq_refl)).
Defined.

(** X11. The header test comes before the trimming: a line that is the
    header only after trimming (indented, or ending in a carriage
    return) is not skipped but refused with a warning, and so is a line
    of white space only; neither stops the loop. *)
Theorem header_test_precedes_trimming line :
  truthy line = true -> line <> "NIC statistics:" ->
  strip line = "NIC statistics:" \/ strip line = EmptyString ->
  parse_line line = Failed (strip line)
  /\ forall a iface st,
      process_line a iface st line = ([failed_parsing (strip line)], Ok st).
Proof.
  intros Ht Hh Hs.
  assert (Hf : parse_line line = Failed (strip line)).
  { rewrite parse_line_refines. unfold spec_parse_line.
    rewrite Ht. apply String.eqb_neq in Hh. rewrite Hh. cbn [negb orb].
    cbv zeta. now destruct Hs as [-> | ->]. }
  split; [exact Hf|]. intros a iface [ks g].
  now rewrite process_line_cases, Hf.
Qed.

Lemma header_test_precedes_trimming_witness :
  parse_line header_with_CR = Failed "NIC statistics:"
  /\ parse_line "   " = Failed EmptyString.
Proof.
  split.
  - exact (proj1 (header_test_precedes_trimming header_with_CR eq_refl
                    ltac:(discriminate) (or_introl eq_refl))).
  - exact (proj1 (header_test_precedes_trimming "   " eq_refl
                    ltac:(discriminate) (or_intror eq_refl))).
Defined.

(** *** Nothing is dropped without a trace *)

Lemma n_failed_cons line rest :
  n_failed (line :: rest)
  = ((if is_failed (parse_line line) then 1 else 0) + n_failed rest)%nat.
Proof.
  unfold n_failed. cbn [map List.filter].
  now destruct (is_failed (parse_line line)).
Qed.

Lemma n_accepted_cons a line rest :
  n_accepted a (line :: rest)
  = (match parse_line line with
     | Pair k _ => match includes a k with
                   | Some true => 1
                   | _ => 0
                   end
     | _ => 0
     end + n_accepted a rest)%nat.
Proof.
  unfold n_accepted. rewrite pairs_of_cons.
  destruct (parse_line line) as [|l|k v]; try reflexivity.
  cbn [List.filter fst]. now destruct (includes a k) as [[|]|].
Qed.

Lemma loop_accounting a iface : forall lines ks g evs ks' g',
  foldM (process_line a iface) (ks, g) lines = (evs, Ok (ks', g')) ->
  (length g' + length evs
   = length g + n_failed lines + n_accepted a lines)%nat.
Proof.
  induction lines as [|line rest IH]; intros ks g evs ks' g'.
  - intros [= <- <- <-]. cbn. lia.
  - rewrite foldM_cons, process_line_cases, n_failed_cons, n_accepted_cons.
    destruct (parse_line line) as [|l|key value]; cbn [is_failed].
    + intros (e2 & H & ->)%bind_events_Ok_inv.
      apply IH in H. cbn [app]. lia.
    + intros (e2 & H & ->)%bind_events_Ok_inv.
      apply IH in H. cbn [app length]. lia.
    + destruct (includes a key) as [[|]|]; [| |discriminate].
      * destruct (bool_decide (key ∈ ks)).
        -- intros (e2 & H & ->)%bind_events_Ok_inv.
           apply IH in H. cbn [app length]. lia.
        -- intros (e2 & H & ->)%bind_events_Ok_inv.
           apply IH in H. unfold add_metric in H.
           rewrite length_app in H. cbn [app length] in *. lia.
      * intros (e2 & H & ->)%bind_events_Ok_inv.
        apply IH in H. cbn [app]. lia.
Qed.

(** X12. Nothing is dropped without a trace.  When [ethtool] ended with
    status 0 and the call completes, the samples added and the log
    records emitted are, together, as many as the lines the parser
    refuses plus the counters that pass the filter: every refused line
    gives one warning, and every counter that passes the filter gives
    one sample or one warning.  Only empty lines, the header and
    filtered names leave no trace. *)
Theorem every_counter_is_accounted_for w a iface g0 data evs g :
  ethtool w iface = Ran 0 data ->
  update_ethtool_stats w a iface g0 = (evs, Ok g) ->
  (length g + length evs
   = length g0 + n_failed (split NL data) + n_accepted a (split NL data))%nat.
Proof.
  intros Hrun. unfold update_ethtool_stats. rewrite Hrun. cbn [Z.eqb negb].
  intros (e1 & [ks1 g1] & e2 & H & Hk & ->)%bind_Ok_inv.
  cbn [snd] in Hk. injection Hk as <- <-. rewrite app_nil_r.
  exact (loop_accounting _ _ _ _ _ _ _ _ H).
Qed.

Lemma every_counter_is_accounted_for_witness :
  (2 + 1 = 0 + n_failed (split NL NIC_example)
           + n_accepted (args_of oneshot_cmdline) (split NL NIC_example))%nat.
Proof.
  exact (every_counter_is_accounted_for world_example
           (args_of oneshot_cmdline) "eth0" [] NIC_example
           [already_seen "rx_packets" "eth0"]
           [("eth0", "rx_packets", float_of_Z 100);
            ("eth0", "rx_errors", float_of_Z 0)]
           eq_refl eq_refl).
Defined.

(** *** The effects of a collection *)

Lemma foldM_exit_events {A B} (f : A -> B -> M A) (P : list event -> Prop) :
  (forall e evs, P evs -> P (e ++ evs)) ->
  (forall a x evs n, f a x = (evs, SysExit n) -> P evs) ->
  forall l a evs n, foldM f a l = (evs, SysExit n) -> P evs.
Proof.
  intros Hpre Hf; induction l as [|x l IH]; intros a evs n; [discriminate|].
  rewrite foldM_cons. destruct (f a x) as [e [a1|m|ex]] eqn:Hx; cbn [bind].
  - destruct (foldM f a1 l) as [e2 r2] eqn:Hl. intros [= <- ->].
    apply Hpre. exact (IH _ _ _ Hl).
  - intros [= <- <-]. exact (Hf _ _ _ _ Hx).
  - discriminate.
Qed.

Lemma update_exit_events w a iface g evs n :
  update_ethtool_stats w a iface g = (evs, SysExit n) ->
  ends_with_critical evs.
Proof.
  unfold update_ethtool_stats.
  destruct (ethtool w iface) as [|e| |rc data]; try discriminate.
  - intros [= <- _]. now exists [], "/sbin/ethtool not found. Giving up".
  - intros [= <- _]. now eexists [], _.
  - destruct (negb (rc =? 0)); [discriminate|].
    destruct (foldM (process_line a iface) (∅, g) (split NL data))
      as [e1 [st|m|ex]] eqn:Hl; cbn [bind]; try discriminate.
    intros [= <- <-]. exfalso. revert Hl.
    apply (foldM_exit_status _ (fun _ => False)).
    intros st x e2 m' H. exact (process_line_no_exit _ _ _ _ _ _ H).
Qed.

(** X13. A collection has no effect but log records: it writes no file,
    starts no server and does not sleep.  When it exits the process, the
    status is 1 and the last record logged is a CRITICAL one. *)
Theorem collection_effects w a :
  Forall is_log (fst (collect w a))
  /\ forall evs n,
      collect w a = (evs, SysExit n) -> n = 1 /\ ends_with_critical evs.
Proof.
  split; [apply collect_only_logs|]. intros evs n H.
  split; [exact (collect_exit_status _ _ _ _ H)|].
  unfold collect in H. destruct (listdir w) as [entries|]; [|discriminate].
  revert H. apply foldM_exit_events.
  - intros e evs' (before & msg & ->). exists (e ++ before), msg.
    now rewrite app_assoc.
  - intros g d e m. unfold collect_entry.
    destruct (physical_result a d) as [[b ->]| ->]; [|discriminate].
    rewrite bind_pure. destruct b; [|discriminate].
    apply update_exit_events.
Qed.

Lemma collection_effects_witness :
  1 = 1 /\ ends_with_critical [not_found].
Proof.
  exact (proj2 (collection_effects world_without_ethtool
                  (args_of oneshot_cmdline))
           [not_found] 1 eq_refl).
Defined.

(** *** The end of the periodic loop *)



